(** * aurora-controller: the [image-pull-secrets] command

    A shallow embedding of [imagePullSecretsCmd] of package [cmd]: the two
    sync handler closures handed to the service-account and namespace
    controllers, the informer event handlers, the start-up sequence of [Run],
    and [generateSecrets].

    The Go code works on pointers into the informer caches and on slices
    that share backing arrays, and every remote call may fail.  The model
    therefore threads an explicit [World] (slice heap, informer cache,
    cluster state, injected failures, log of remote calls) through a small
    state monad that can also panic. *)

From Stdlib Require Import Strings.Byte.
From Stdlib Require Strings.String.
From stdpp Require Import base option list gmap strings.

(** ** Go values: strings, byte slices, slices with shared backing arrays *)
Module Go.

(** [[]byte]: a nil slice and an empty non-nil slice are different values
    for [reflect.DeepEqual]. *)
Inductive ByteSlice :=
| NilBytes
| Bytes (bs : list byte).

#[global] Instance byte_eq_dec : EqDecision byte := Byte.byte_eq_dec.
#[global] Instance ByteSlice_eq_dec : EqDecision ByteSlice.
Proof. solve_decision. Defined.

(** [[]byte(s)] on a Go string: never nil, also for the empty string. *)
Definition bytes_of_string (s : string) : ByteSlice :=
  Bytes (String.list_byte_of_string s).

(** Address of a backing array. *)
Definition loc := positive.

(** A slice header.  [s_arr = None] is the nil slice.  Slices here always
    start at index 0 of their array, as decoded and copied objects do. *)
Record slice := Slice { s_arr : option loc; s_len : nat; s_cap : nat }.

Definition nil_slice : slice := Slice None 0 0.

#[global] Instance slice_eq_dec : EqDecision slice.
Proof. solve_decision. Defined.

Section Heap.
Context {T : Type} (zero : T).

(** The elements a [range] over the slice visits. *)
Definition view (h : gmap loc (list T)) (s : slice) : list T :=
  match s_arr s with
  | None => []
  | Some a => take (s_len s) (default [] (h !! a))
  end.

(** The whole array behind the slice, spare capacity included. *)
Definition backing (h : gmap loc (list T)) (s : slice) : option (list T) :=
  a ← s_arr s; h !! a.

Definition wf_slice (h : gmap loc (list T)) (s : slice) : Prop :=
  match s_arr s with
  | None => s_len s = 0 ∧ s_cap s = 0
  | Some a => ∃ arr, h !! a = Some arr ∧ length arr = s_cap s ∧ s_len s ≤ s_cap s
  end.

Definition alloc (h : gmap loc (list T)) (arr : list T)
  : loc * gmap loc (list T) :=
  let a := fresh (dom h) in (a, <[a := arr]> h).

(** [make([]T, n)] followed by [copy(dst, src)]. *)
Definition make_copy (h : gmap loc (list T)) (s : slice)
  : slice * gmap loc (list T) :=
  let '(a, h') := alloc h (view h s) in
  (Slice (Some a) (s_len s) (s_len s), h').

(** Capacity chosen by the runtime when [append] has to reallocate
    (allocator size-class rounding left out; no result below depends on
    the exact value, only on it being at least [newlen]). *)
Definition growcap (oldcap newlen : nat) : nat :=
  if decide (2 * oldcap < newlen) then newlen
  else if decide (oldcap < 256) then 2 * oldcap
  else newlen `max` (oldcap + (oldcap + 3 * 256) / 4).

(** [append(s, x)]: with spare capacity the element is written into the
    array [s] already points to, and the result shares that array;
    otherwise a new array is allocated. *)
Definition append (h : gmap loc (list T)) (s : slice) (x : T)
  : slice * gmap loc (list T) :=
  match s_arr s with
  | Some a =>
      if decide (s_len s < s_cap s) then
        (Slice (Some a) (S (s_len s)) (s_cap s),
         alter (λ arr, <[s_len s := x]> arr) a h)
      else
        let c := growcap (s_cap s) (S (s_len s)) in
        let '(a', h') :=
          alloc h (view h s ++ x :: replicate (c - S (s_len s)) zero) in
        (Slice (Some a') (S (s_len s)) c, h')
  | None =>
      let c := growcap 0 1 in
      let '(a', h') := alloc h (x :: replicate (c - 1) zero) in
      (Slice (Some a') 1 c, h')
  end.
End Heap.

End Go.

(** ** The Kubernetes objects the command touches *)
Module K8s.
Import Go.

Record TypeMeta := { APIVersion : string; Kind : string }.

Record ObjectMeta :=
  { Name : string; Namespace : string; ResourceVersion : string }.

Record LocalObjectReference := { RefName : string }.

Definition zero_ref : LocalObjectReference := {| RefName := "" |}.

(** [corev1.ServiceAccount] in memory: the pull-secret list is a slice. *)
Record ServiceAccount :=
  { sa_meta : ObjectMeta; ImagePullSecrets : slice }.

(** A service account as it travels to and from the API server. *)
Record ServiceAccountWire :=
  { saw_meta : ObjectMeta; saw_pull : list LocalObjectReference }.

Record Namespace_ := { ns_meta : ObjectMeta }.

(** [corev1.Secret].  [Data] is a Go map; a nil map reads as the empty
    map, and as the desired [Data] always has one key, comparing with
    either gives the same answer. *)
Record Secret :=
  { sec_type_meta : TypeMeta;
    sec_meta : ObjectMeta;
    Type_ : string;
    Data : gmap string ByteSlice }.

Definition SecretTypeDockerConfigJson : string := "kubernetes.io/dockerconfigjson".

Definition zero_secret : Secret :=
  {| sec_type_meta := {| APIVersion := ""; Kind := "" |};
     sec_meta := {| Name := ""; Namespace := ""; ResourceVersion := "" |};
     Type_ := "";
     Data := ∅ |}.

Definition with_Data (s : Secret) (d : gmap string ByteSlice) : Secret :=
  {| sec_type_meta := sec_type_meta s;
     sec_meta := sec_meta s;
     Type_ := Type_ s;
     Data := d |}.

Definition with_ImagePullSecrets (sa : ServiceAccount) (s : slice) : ServiceAccount :=
  {| sa_meta := sa_meta sa; ImagePullSecrets := s |}.

#[global] Instance TypeMeta_eq_dec : EqDecision TypeMeta.
Proof. solve_decision. Defined.
#[global] Instance ObjectMeta_eq_dec : EqDecision ObjectMeta.
Proof. solve_decision. Defined.
#[global] Instance LocalObjectReference_eq_dec : EqDecision LocalObjectReference.
Proof. solve_decision. Defined.
#[global] Instance Secret_eq_dec : EqDecision Secret.
Proof. solve_decision. Defined.

(** [k8s.io/apimachinery/pkg/api/errors]: an error carries a reason. *)
Inductive StatusReason :=
| ReasonNotFound
| ReasonAlreadyExists
| ReasonConflict
| ReasonInternalError
| ReasonServerTimeout.

#[global] Instance StatusReason_eq_dec : EqDecision StatusReason.
Proof. solve_decision. Defined.

(** A Go [error] value; [None] is [nil]. *)
Definition error := option StatusReason.

Definition IsNotFound (err : error) : bool :=
  match err with Some ReasonNotFound => true | _ => false end.

(** [reflect.DeepEqual] on two [map[string][]byte] values. *)
Definition DeepEqual (a b : gmap string ByteSlice) : bool := bool_decide (a = b).

End K8s.

(** ** The world the handlers run in *)
Module Cluster.
Import Go K8s.

(** Requests the typed clientset can send for the kinds used here. *)
Inductive ApiCall :=
| ServiceAccountsUpdate (ns : string) (sa : ServiceAccountWire)
| SecretsCreate (ns : string) (s : Secret)
| SecretsUpdate (ns : string) (s : Secret)
| SecretsDelete (ns name : string).

Definition is_delete (c : ApiCall) : bool :=
  match c with SecretsDelete _ _ => true | _ => false end.

Record World :=
  { (** backing arrays of the pull-secret slices *)
    heap : gmap loc (list LocalObjectReference);
    (** the secrets informer's store, read through [secretsLister] *)
    secretsCache : gmap (string * string) Secret;
    (** a failure of the index lookup behind the lister, if any *)
    indexerError : error;
    (** what the API server stores *)
    secrets : gmap (string * string) Secret;
    serviceAccounts : gmap (string * string) ServiceAccountWire;
    (** outcome injected into the coming remote calls, in order:
        [Some r] makes the call fail with reason [r] *)
    faults : list error;
    (** remote calls issued so far, oldest first *)
    calls : list ApiCall }.

Definition set_heap (h : gmap loc (list LocalObjectReference)) (w : World) : World :=
  {| heap := h; secretsCache := secretsCache w; indexerError := indexerError w;
     secrets := secrets w; serviceAccounts := serviceAccounts w;
     faults := faults w; calls := calls w |}.
Definition set_secretsCache (c : gmap (string * string) Secret) (w : World) : World :=
  {| heap := heap w; secretsCache := c; indexerError := indexerError w;
     secrets := secrets w; serviceAccounts := serviceAccounts w;
     faults := faults w; calls := calls w |}.
Definition set_secrets (c : gmap (string * string) Secret) (w : World) : World :=
  {| heap := heap w; secretsCache := secretsCache w; indexerError := indexerError w;
     secrets := c; serviceAccounts := serviceAccounts w;
     faults := faults w; calls := calls w |}.
Definition set_serviceAccounts (c : gmap (string * string) ServiceAccountWire)
    (w : World) : World :=
  {| heap := heap w; secretsCache := secretsCache w; indexerError := indexerError w;
     secrets := secrets w; serviceAccounts := c;
     faults := faults w; calls := calls w |}.
Definition set_faults (f : list error) (w : World) : World :=
  {| heap := heap w; secretsCache := secretsCache w; indexerError := indexerError w;
     secrets := secrets w; serviceAccounts := serviceAccounts w;
     faults := f; calls := calls w |}.
Definition set_calls (l : list ApiCall) (w : World) : World :=
  {| heap := heap w; secretsCache := secretsCache w; indexerError := indexerError w;
     secrets := secrets w; serviceAccounts := serviceAccounts w;
     faults := faults w; calls := l |}.

(** *** Computations: state passing, with panics *)
Inductive Outcome (A : Type) :=
| Returns (a : A)
| Panics (msg : string).
Arguments Returns {A} a.
Arguments Panics {A} msg.

Definition Exec (A : Type) : Type := World → Outcome A * World.

#[global] Instance Exec_ret : MRet Exec := λ A a w, (Returns a, w).
#[global] Instance Exec_bind : MBind Exec := λ A B f m w,
  match m w with
  | (Returns a, w') => f a w'
  | (Panics msg, w') => (Panics msg, w')
  end.

Definition panic {A} (msg : string) : Exec A := λ w, (Panics msg, w).
Definition gets {A} (f : World → A) : Exec A := λ w, (Returns (f w), w).
Definition modify (f : World → World) : Exec unit := λ w, (Returns tt, f w).

(** The calls a computation adds to the log. *)
Definition issued {A} (m : Exec A) (w : World) : list ApiCall :=
  drop (length (calls w)) (calls (m w).2).

(** *** Slices in the world's heap *)
Definition range (s : slice) : Exec (list LocalObjectReference) :=
  gets (λ w, view (heap w) s).

Definition append (s : slice) (x : LocalObjectReference) : Exec slice :=
  λ w, let '(s', h') := Go.append zero_ref (heap w) s x in (Returns s', set_heap h' w).

(** *** The remote API, as client-go's object tracker answers it, plus
    injected failures *)
Definition log (c : ApiCall) : Exec unit :=
  modify (λ w, set_calls (calls w ++ [c]) w).

Definition next_fault : Exec error :=
  λ w, match faults w with
       | [] => (Returns None, w)
       | f :: fs => (Returns f, set_faults fs w)
       end.

(** [kubeClient.CoreV1().ServiceAccounts(ns).Update(ctx, sa, opts)];
    the object is serialised as it is when the call is made. *)
Definition ServiceAccounts_Update (ns : string) (sa : ServiceAccount) : Exec error :=
  pull ← range (ImagePullSecrets sa);
  let wire := {| saw_meta := sa_meta sa; saw_pull := pull |} in
  _ ← log (ServiceAccountsUpdate ns wire);
  f ← next_fault;
  match f with
  | Some r => mret (Some r)
  | None =>
      stored ← gets (λ w, serviceAccounts w !! (ns, Name (sa_meta sa)));
      match stored with
      | None => mret (Some ReasonNotFound)
      | Some _ =>
          _ ← modify (λ w, set_serviceAccounts
                             (<[(ns, Name (sa_meta sa)) := wire]> (serviceAccounts w)) w);
          mret None
      end
  end.

(** [secretsLister.Secrets(ns).Get(name)]: a pointer into the informer's
    store, or nil and an error. *)
Inductive SecretPtr :=
| PNil
| PCached (key : string * string)
| PFresh (s : Secret).

Definition Lister_Get (ns name : string) : Exec (SecretPtr * error) :=
  ierr ← gets indexerError;
  match ierr with
  | Some r => mret (PNil, Some r)
  | None =>
      hit ← gets (λ w, secretsCache w !! (ns, name));
      match hit with
      | Some _ => mret (PCached (ns, name), None)
      | None => mret (PNil, Some ReasonNotFound)
      end
  end.

Definition nil_deref : string := "invalid memory address or nil pointer dereference".

(** Reading through a pointer; a nil pointer panics. *)
Definition load (p : SecretPtr) : Exec Secret :=
  match p with
  | PNil => panic nil_deref
  | PCached key =>
      hit ← gets (λ w, secretsCache w !! key);
      match hit with
      | Some s => mret s
      | None => panic "dangling cache pointer"
      end
  | PFresh s => mret s
  end.

(** [p.Data = d]: through a pointer into the cache this writes the cached
    object itself. *)
Definition store_Data (p : SecretPtr) (d : gmap string ByteSlice) : Exec SecretPtr :=
  match p with
  | PNil => panic nil_deref
  | PCached key =>
      _ ← modify (λ w, set_secretsCache (alter (λ s, with_Data s d) key (secretsCache w)) w);
      mret (PCached key)
  | PFresh s => mret (PFresh (with_Data s d))
  end.

(** [kubeClient.CoreV1().Secrets(ns).Create(ctx, secret, opts)]; on
    failure the client hands back an empty object with the error. *)
Definition Secrets_Create (ns : string) (s : Secret) : Exec (SecretPtr * error) :=
  _ ← log (SecretsCreate ns s);
  f ← next_fault;
  match f with
  | Some r => mret (PFresh zero_secret, Some r)
  | None =>
      stored ← gets (λ w, secrets w !! (ns, Name (sec_meta s)));
      match stored with
      | Some _ => mret (PFresh zero_secret, Some ReasonAlreadyExists)
      | None =>
          _ ← modify (λ w, set_secrets (<[(ns, Name (sec_meta s)) := s]> (secrets w)) w);
          mret (PFresh s, None)
      end
  end.

(** [kubeClient.CoreV1().Secrets(ns).Update(ctx, p, opts)]. *)
Definition Secrets_Update (ns : string) (p : SecretPtr) : Exec error :=
  s ← load p;
  _ ← log (SecretsUpdate ns s);
  f ← next_fault;
  match f with
  | Some r => mret (Some r)
  | None =>
      stored ← gets (λ w, secrets w !! (ns, Name (sec_meta s)));
      match stored with
      | None => mret (Some ReasonNotFound)
      | Some _ =>
          _ ← modify (λ w, set_secrets (<[(ns, Name (sec_meta s)) := s]> (secrets w)) w);
          mret None
      end
  end.

End Cluster.

(** ** The command: handlers, event handlers, start-up *)
Module ImagePullSecrets.
Import Go K8s Cluster.

(** [os.Getenv]: the empty string when the variable is not set. *)
Definition Getenv (env : gmap string string) (key : string) : string :=
  default "" (env !! key).

Definition AURORA_SECRET_NAME : string := "AURORA_SECRET_NAME".
Definition AURORA_SECRET_DOCKERCONFIGJSON : string := "AURORA_SECRET_DOCKERCONFIGJSON".
Definition dockerconfigjson : string := ".dockerconfigjson".

(** *** Service accounts *)

(** The [for ... range] with [break] at the first match. *)
Fixpoint scan (env : gmap string string) (refs : list LocalObjectReference) : bool :=
  match refs with
  | [] => false
  | imagePullSecret :: rest =>
      if String.eqb (RefName imagePullSecret) (Getenv env AURORA_SECRET_NAME)
      then true
      else scan env rest
  end.

(** The generated [DeepCopy]: a non-nil list is copied into a new array
    of exactly its length. *)
Definition DeepCopy (sa : ServiceAccount) : Exec ServiceAccount :=
  match s_arr (ImagePullSecrets sa) with
  | None => mret sa
  | Some _ =>
      λ w, let '(s', h') := make_copy (heap w) (ImagePullSecrets sa) in
           (Returns (with_ImagePullSecrets sa s'), set_heap h' w)
  end.

(** The closure given to [serviceaccounts.NewController]. *)
Definition serviceAccountsHandler (env : gmap string string)
    (serviceAccount : ServiceAccount) : Exec error :=
  refs ← range (ImagePullSecrets serviceAccount);
  let found := scan env refs in
  if negb found then
    updated ← DeepCopy serviceAccount;
    s ← append (ImagePullSecrets serviceAccount)
               {| RefName := Getenv env AURORA_SECRET_NAME |};
    let updated := with_ImagePullSecrets updated s in
    err ← ServiceAccounts_Update (Namespace (sa_meta serviceAccount)) updated;
    match err with
    | Some r => mret (Some r)
    | None => mret None
    end
  else mret None.

(** *** Namespaces *)

Definition generateSecrets (env : gmap string string) (namespace : Namespace_)
    : list Secret :=
  let secrets := [] in
  let secret :=
    {| sec_type_meta := {| APIVersion := "core/v1"; Kind := "Secret" |};
       sec_meta := {| Name := Getenv env AURORA_SECRET_NAME;
                      Namespace := Name (ns_meta namespace);
                      ResourceVersion := "" |};
       Type_ := SecretTypeDockerConfigJson;
       Data := {[ dockerconfigjson :=
                    bytes_of_string (Getenv env AURORA_SECRET_DOCKERCONFIGJSON) ]} |} in
  secrets ++ [secret].

(** What one pass through the loop body does to the loop. *)
Inductive Flow :=
| Continue
| Return (err : error).

(** The body of the [for _, secret := range secrets] loop. *)
Definition reconcileSecret (secret : Secret) : Exec Flow :=
  '(currentSecret, err) ←
      Lister_Get (Namespace (sec_meta secret)) (Name (sec_meta secret));
  r ← (if IsNotFound err then
         '(created, err) ← Secrets_Create (Namespace (sec_meta secret)) secret;
         match err with
         | Some _ => mret (inl err)
         | None => mret (inr created)
         end
       else mret (inr currentSecret));
  match r with
  | inl err => mret (Return err)
  | inr currentSecret =>
      current ← load currentSecret;
      if negb (DeepEqual (Data secret) (Data current)) then
        currentSecret ← store_Data currentSecret (Data secret);
        err ← Secrets_Update (Namespace (sec_meta secret)) currentSecret;
        match err with
        | Some _ => mret (Return err)
        | None => mret Continue
        end
      else mret Continue
  end.

Fixpoint forSecrets (secrets : list Secret) : Exec error :=
  match secrets with
  | [] => mret None
  | secret :: rest =>
      flow ← reconcileSecret secret;
      match flow with
      | Return err => mret err
      | Continue => forSecrets rest
      end
  end.

(** The closure given to [namespaces.NewController]. *)
Definition namespacesHandler (env : gmap string string) (namespace : Namespace_)
    : Exec error :=
  forSecrets (generateSecrets env namespace).

(** *** Informer event handlers *)

Inductive Object :=
| ObjServiceAccount (sa : ServiceAccount)
| ObjSecret (s : Secret)
| ObjNamespace (ns : Namespace_).

Inductive Controller :=
| controllerServiceAccounts
| controllerNamespaces.

(** What an event handler does: calls to a controller's [HandleObject]. *)
Inductive Effect :=
| HandleObject (c : Controller) (obj : Object).

(** [cache.ResourceEventHandlerFuncs]: a missing function is a no-op. *)
Record ResourceEventHandlerFuncs :=
  { AddFunc : option (Object → Outcome (list Effect));
    UpdateFunc : option (Object → Object → Outcome (list Effect));
    DeleteFunc : option (Object → Outcome (list Effect)) }.

Definition OnAdd (h : ResourceEventHandlerFuncs) (obj : Object) : Outcome (list Effect) :=
  match AddFunc h with Some f => f obj | None => Returns [] end.
Definition OnUpdate (h : ResourceEventHandlerFuncs) (old new : Object)
    : Outcome (list Effect) :=
  match UpdateFunc h with Some f => f old new | None => Returns [] end.
Definition OnDelete (h : ResourceEventHandlerFuncs) (obj : Object) : Outcome (list Effect) :=
  match DeleteFunc h with Some f => f obj | None => Returns [] end.

Definition assertion_failed : string := "interface conversion: wrong dynamic type".

Definition serviceAccountsUpdateFunc (old new : Object) : Outcome (list Effect) :=
  match new with
  | ObjServiceAccount newNP =>
      match old with
      | ObjServiceAccount oldNP =>
          if String.eqb (ResourceVersion (sa_meta newNP)) (ResourceVersion (sa_meta oldNP))
          then Returns []
          else Returns [HandleObject controllerServiceAccounts new]
      | _ => Panics assertion_failed
      end
  | _ => Panics assertion_failed
  end.

Definition secretsUpdateFunc (old new : Object) : Outcome (list Effect) :=
  match new with
  | ObjSecret newNP =>
      match old with
      | ObjSecret oldNP =>
          if String.eqb (ResourceVersion (sec_meta newNP)) (ResourceVersion (sec_meta oldNP))
          then Returns []
          else Returns [HandleObject controllerNamespaces new]
      | _ => Panics assertion_failed
      end
  | _ => Panics assertion_failed
  end.

Definition serviceAccountsEventHandler : ResourceEventHandlerFuncs :=
  {| AddFunc := Some (λ obj, Returns [HandleObject controllerServiceAccounts obj]);
     UpdateFunc := Some serviceAccountsUpdateFunc;
     DeleteFunc := None |}.

Definition secretsEventHandler : ResourceEventHandlerFuncs :=
  {| AddFunc := None;
     UpdateFunc := Some secretsUpdateFunc;
     DeleteFunc := Some (λ obj, Returns [HandleObject controllerNamespaces obj]) |}.

(** *** Start-up *)

Inductive Informer :=
| namespaceInformer
| serviceAccountsInformer
| secretsInformer.

(** What the surroundings of [Run] do: whether the two client
    constructors succeed, the tick at which each informer first reports
    [HasSynced] (never, for [None]), and the tick at which the stop channel
    closes. *)
Record Boot :=
  { BuildConfigFromFlags_ok : bool;
    NewForConfig_ok : bool;
    HasSynced : Informer → option nat;
    stopCh : option nat }.

Inductive WaitResult :=
| WaitSynced
| WaitStopped
| WaitForever.

(** The first tick at which every listed informer has synced. *)
Fixpoint allSyncedAt (cacheSyncs : list (option nat)) : option nat :=
  match cacheSyncs with
  | [] => Some 0
  | c :: rest => t ← c; m ← allSyncedAt rest; Some (t `max` m)
  end.

(** [cache.WaitForCacheSync]: polls until all have synced ([true]) or the
    stop channel closes first ([false]); with neither it never returns.  When
    both fall on the same tick the poll is taken to see the sync. *)
Definition WaitForCacheSync (stop : option nat) (cacheSyncs : list (option nat))
    : WaitResult :=
  match allSyncedAt cacheSyncs, stop with
  | Some t, Some s => if decide (t ≤ s) then WaitSynced else WaitStopped
  | Some _, None => WaitSynced
  | None, Some _ => WaitStopped
  | None, None => WaitForever
  end.

Definition cache_sync_failed : string := "failed to wait for caches to sync".

Inductive Startup :=
| Fatal (msg : string)
| Blocked
| Started (runs : list (Controller * nat)).

(** [Run] of the command up to where the controllers are started; each
    [(c, n)] is a call [c.Run(n, stopCh)].  [env] is the process
    environment, which [Run] could consult. *)
Definition Run (env : gmap string string) (boot : Boot) : Startup :=
  if negb (BuildConfigFromFlags_ok boot) then Fatal "error building kubeconfig"
  else if negb (NewForConfig_ok boot) then Fatal "Error building kubernetes clientset"
  else
    match WaitForCacheSync (stopCh boot)
            [HasSynced boot serviceAccountsInformer; HasSynced boot secretsInformer] with
    | WaitSynced => Started [(controllerServiceAccounts, 2); (controllerNamespaces, 2)]
    | WaitStopped => Fatal cache_sync_failed
    | WaitForever => Blocked
    end.

End ImagePullSecrets.

(** ** Vocabulary of the statements *)
Module Vocabulary.
Import Go K8s Cluster ImagePullSecrets.

(** The reference the service-account handler appends. *)
Definition newRef (env : gmap string string) : LocalObjectReference :=
  {| RefName := Getenv env AURORA_SECRET_NAME |}.

(** The account as the handler sends it when the name is missing. *)
Definition sentWire (env : gmap string string) (sa : ServiceAccount) (w : World)
    : ServiceAccountWire :=
  {| saw_meta := sa_meta sa;
     saw_pull := view (heap w) (ImagePullSecrets sa) ++ [newRef env] |}.

Definition sa_key (sa : ServiceAccount) : string * string :=
  (Namespace (sa_meta sa), Name (sa_meta sa)).

(** The in-memory account shows what the cluster stores under its key. *)
Definition sa_in_sync (w : World) (sa : ServiceAccount) : Prop :=
  serviceAccounts w !! sa_key sa
  = Some {| saw_meta := sa_meta sa; saw_pull := view (heap w) (ImagePullSecrets sa) |}.

Definition secret_key (secret : Secret) : string * string :=
  (Namespace (sec_meta secret), Name (sec_meta secret)).

(** Key and payload of the secret [generateSecrets] asks for. *)
Definition secretKey (env : gmap string string) (ns : Namespace_) : string * string :=
  (Name (ns_meta ns), Getenv env AURORA_SECRET_NAME).
Definition desiredData (env : gmap string string) : gmap string ByteSlice :=
  {[ dockerconfigjson := bytes_of_string (Getenv env AURORA_SECRET_DOCKERCONFIGJSON) ]}.

(** An informer store files every object under its own namespace and name. *)
Definition keyed_by_name (m : gmap (string * string) Secret) : Prop :=
  map_Forall (λ k s, secret_key s = k) m.

Definition create_or_update (c : ApiCall) : bool :=
  match c with SecretsCreate _ _ | SecretsUpdate _ _ => true | _ => false end.

(** An update notification as a typed informer delivers it to the handler
    registered on it. *)
Inductive UpdateNotification :=
| ServiceAccountUpdated (old new : ServiceAccount)
| SecretUpdated (old new : Secret).

Definition deliverUpdate (n : UpdateNotification) : Outcome (list Effect) :=
  match n with
  | ServiceAccountUpdated old new =>
      OnUpdate serviceAccountsEventHandler (ObjServiceAccount old) (ObjServiceAccount new)
  | SecretUpdated old new =>
      OnUpdate secretsEventHandler (ObjSecret old) (ObjSecret new)
  end.

Definition sameResourceVersion (n : UpdateNotification) : Prop :=
  match n with
  | ServiceAccountUpdated old new =>
      ResourceVersion (sa_meta new) = ResourceVersion (sa_meta old)
  | SecretUpdated old new =>
      ResourceVersion (sec_meta new) = ResourceVersion (sec_meta old)
  end.

(** Building a list one [append] at a time from the nil slice, as the
    generated decoders do. *)
Definition appendAll (refs : list LocalObjectReference) : Exec slice :=
  foldl (λ acc r, s ← acc; append s r) (mret nil_slice) refs.

Definition bothStarted : list (Controller * nat) :=
  [(controllerServiceAccounts, 2); (controllerNamespaces, 2)].

Definition with_HasSynced (boot : Boot) (f : Informer → option nat) : Boot :=
  {| BuildConfigFromFlags_ok := BuildConfigFromFlags_ok boot;
     NewForConfig_ok := NewForConfig_ok boot;
     HasSynced := f;
     stopCh := stopCh boot |}.

(** The informer has synced, and no later than the stop channel closes. *)
Definition syncedInTime (boot : Boot) (i : Informer) : bool :=
  match HasSynced boot i, stopCh boot with
  | Some t, Some s => bool_decide (t ≤ s)
  | Some _, None => true
  | None, _ => false
  end.
End Vocabulary.

(** ** Concrete accounts, secrets and worlds *)
Module Scenarios.
Import Go K8s Cluster ImagePullSecrets Vocabulary.

Definition env_regcred : gmap string string :=
  {[ AURORA_SECRET_NAME := "regcred"; AURORA_SECRET_DOCKERCONFIGJSON := "{}" ]}.

Definition meta (name ns rv : string) : ObjectMeta :=
  {| Name := name; Namespace := ns; ResourceVersion := rv |}.
Definition ref (name : string) : LocalObjectReference := {| RefName := name |}.

Definition bare_world : World :=
  {| heap := ∅; secretsCache := ∅; indexerError := None; secrets := ∅;
     serviceAccounts := ∅; faults := []; calls := [] |}.

(** A service account with three pull secrets, in an array of four: what
    three appends to a nil slice leave behind. *)
Definition builder : ServiceAccount :=
  {| sa_meta := meta "builder" "team-a" "41";
     ImagePullSecrets := Slice (Some 1%positive) 3 4 |}.
Definition world_builder : World :=
  set_serviceAccounts
    {[ ("team-a", "builder") :=
         {| saw_meta := meta "builder" "team-a" "41";
            saw_pull := [ref "quay"; ref "ghcr"; ref "internal"] |} ]}
    (set_heap {[ 1%positive := [ref "quay"; ref "ghcr"; ref "internal"; zero_ref] ]}
       bare_world).

(** The same account as the informer hands it over after the update. *)
Definition builder_updated : ServiceAccount :=
  {| sa_meta := meta "builder" "team-a" "41";
     ImagePullSecrets := Slice (Some 1%positive) 4 4 |}.

(** A service account that lists the same pull secret twice. *)
Definition twins : ServiceAccount :=
  {| sa_meta := meta "twins" "team-a" "7";
     ImagePullSecrets := Slice (Some 1%positive) 2 2 |}.
Definition world_twins : World :=
  set_serviceAccounts
    {[ ("team-a", "twins") :=
         {| saw_meta := meta "twins" "team-a" "7";
            saw_pull := [ref "quay"; ref "quay"] |} ]}
    (set_heap {[ 1%positive := [ref "quay"; ref "quay"] ]} bare_world).

Definition team_a : Namespace_ := {| ns_meta := meta "team-a" "" "3" |}.

(** A secret whose payload has drifted, known to cache and cluster alike. *)
Definition drifted : Secret :=
  {| sec_type_meta := {| APIVersion := "v1"; Kind := "Secret" |};
     sec_meta := meta "regcred" "team-a" "12";
     Type_ := SecretTypeDockerConfigJson;
     Data := {[ dockerconfigjson := bytes_of_string "stale" ]} |}.
Definition world_drifted : World :=
  set_secrets {[ ("team-a", "regcred") := drifted ]}
    (set_secretsCache {[ ("team-a", "regcred") := drifted ]} bare_world).

(** The index behind the lister fails. *)
Definition world_lister_down : World :=
  {| heap := ∅; secretsCache := ∅; indexerError := Some ReasonInternalError;
     secrets := ∅; serviceAccounts := ∅; faults := []; calls := [] |}.

Definition boot_ready : Boot :=
  {| BuildConfigFromFlags_ok := true; NewForConfig_ok := true;
     HasSynced := λ i, match i with namespaceInformer => None | _ => Some 1 end;
     stopCh := None |}.

Definition resync : UpdateNotification :=
  SecretUpdated drifted drifted.
Definition boot_stopped : Boot :=
  {| BuildConfigFromFlags_ok := true; NewForConfig_ok := true;
     HasSynced := λ i, match i with secretsInformer => Some 9 | _ => Some 1 end;
     stopCh := Some 5 |}.
Definition world_synced : World :=
  set_secrets {[ ("team-a", "regcred") :=
                   with_Data drifted (desiredData env_regcred) ]}
    (set_secretsCache {[ ("team-a", "regcred") :=
                           with_Data drifted (desiredData env_regcred) ]} bare_world).
End Scenarios.

(** ** Further accounts, secrets and start-up conditions *)
Module MoreScenarios.
Import Go K8s Cluster ImagePullSecrets Vocabulary Scenarios.

(** The secret exists in the cluster, the cache has not seen it yet. *)
Definition world_raced : World :=
  set_secrets {[ ("team-a", "regcred") := drifted ]} bare_world.

(** The cache still shows a secret that the cluster no longer has. *)
Definition world_stale : World :=
  set_secretsCache {[ ("team-a", "regcred") := drifted ]} bare_world.

(** The drifted secret, one resource version later. *)
Definition rotated : Secret :=
  {| sec_type_meta := sec_type_meta drifted;
     sec_meta := meta "regcred" "team-a" "13";
     Type_ := Type_ drifted;
     Data := Data drifted |}.

Definition boot_no_kubeconfig : Boot :=
  {| BuildConfigFromFlags_ok := false; NewForConfig_ok := true;
     HasSynced := λ _, Some 0;
     stopCh := None |}.

(** A secret that carries the configured payload and one more entry. *)
Definition annotated : Secret :=
  {| sec_type_meta := sec_type_meta drifted;
     sec_meta := meta "regcred" "team-a" "12";
     Type_ := Type_ drifted;
     Data := {[ dockerconfigjson := bytes_of_string "{}";
                "note" := bytes_of_string "keep" ]} |}.
Definition world_annotated : World :=
  set_secrets {[ ("team-a", "regcred") := annotated ]}
    (set_secretsCache {[ ("team-a", "regcred") := annotated ]} bare_world).

Definition env_other : gmap string string :=
  {[ AURORA_SECRET_NAME := "regcred"; AURORA_SECRET_DOCKERCONFIGJSON := "{ }" ]}.
End MoreScenarios.

Import Go K8s Cluster ImagePullSecrets Vocabulary Scenarios.
Import MoreScenarios.

(** * Facts *)

Section HeapFacts.
Context {T : Type} (zero : T).
Implicit Types (h : gmap loc (list T)) (s : slice) (x : T).

Lemma alloc_fresh h arr : h !! (alloc h arr).1 = None.
Proof. unfold alloc; cbn. apply not_elem_of_dom, is_fresh. Qed.

Lemma fresh_ne h a old : h !! a = Some old → fresh (dom h) ≠ a.
Proof.
  intros Ha <-. pose proof (is_fresh (dom h)) as Hf.
  apply not_elem_of_dom in Hf. congruence.
Qed.

Lemma alloc_lookup_old h arr a old :
  h !! a = Some old → (alloc h arr).2 !! a = Some old.
Proof.
  intros Ha. unfold alloc; cbn. rewrite lookup_insert_ne; [done|].
  intros <-. pose proof (alloc_fresh h arr) as Hf. unfold alloc in Hf; cbn in Hf. congruence.
Qed.

Lemma alloc_lookup_new h arr : (alloc h arr).2 !! (alloc h arr).1 = Some arr.
Proof. unfold alloc; cbn. apply lookup_insert_eq. Qed.

Lemma wf_slice_alloc h arr s : wf_slice h s → wf_slice (alloc h arr).2 s.
Proof.
  unfold wf_slice. destruct (s_arr s) as [a|]; [|done].
  intros (old & Ha & ?). exists old. split; [|done]. by apply alloc_lookup_old.
Qed.

Lemma view_alloc h arr s : wf_slice h s → view (alloc h arr).2 s = view h s.
Proof.
  unfold wf_slice, view. destruct (s_arr s) as [a|]; [|done].
  intros (old & Ha & ?). by rewrite (alloc_lookup_old _ _ _ _ Ha), Ha.
Qed.

Lemma growcap_ge oldcap newlen : oldcap < newlen → newlen ≤ growcap oldcap newlen.
Proof. unfold growcap. repeat case_decide; lia. Qed.

Lemma append_view h s x :
  wf_slice h s →
  view (Go.append zero h s x).2 (Go.append zero h s x).1 = view h s ++ [x].
Proof.
  unfold wf_slice, Go.append, view. destruct (s_arr s) as [a|] eqn:Ea.
  - intros (arr & Ha & Hlen & Hle). rewrite Ha; cbn.
    case_decide as Hlt; cbn.
    + rewrite lookup_alter_eq, Ha; cbn.
      erewrite take_S_r; [|apply list_lookup_insert_eq; lia].
      by rewrite take_insert_ge by lia.
    + rewrite lookup_insert_eq; cbn.
      rewrite (cons_middle x), (assoc_L (++)).
      apply take_app_length'. rewrite length_app, length_take; cbn. lia.
  - intros _. cbn. by rewrite lookup_insert_eq.
Qed.

Lemma append_view_old h s x :
  wf_slice h s → view (Go.append zero h s x).2 s = view h s.
Proof.
  unfold wf_slice, Go.append, view. destruct (s_arr s) as [a|] eqn:Ea; [|done].
  intros (arr & Ha & Hlen & Hle). rewrite Ha; cbn.
  case_decide as Hlt; cbn.
  - rewrite lookup_alter_eq, Ha; cbn. by rewrite take_insert_ge by lia.
  - rewrite lookup_insert_ne by eauto using fresh_ne. by rewrite Ha.
Qed.
End HeapFacts.

Section ServiceAccountFacts.
Implicit Types (env : gmap string string) (sa : ServiceAccount) (w : World).

Lemma scan_spec env refs :
  scan env refs = true ↔ Getenv env AURORA_SECRET_NAME ∈ RefName <$> refs.
Proof.
  induction refs as [|r refs IH]; cbn.
  - split; [done|]. by intros ?%elem_of_nil.
  - rewrite elem_of_cons. destruct (String.eqb_spec (RefName r) (Getenv env AURORA_SECRET_NAME)).
    + split; [by left|done].
    + rewrite IH. split; [by right|]. by intros [?|?].
Qed.

Lemma scan_false env refs :
  scan env refs = false ↔ Getenv env AURORA_SECRET_NAME ∉ RefName <$> refs.
Proof. rewrite <-scan_spec. by destruct (scan env refs). Qed.

Lemma serviceAccountsHandler_present env sa w :
  scan env (view (heap w) (ImagePullSecrets sa)) = true →
  serviceAccountsHandler env sa w = (Returns None, w).
Proof.
  intros Hs. unfold serviceAccountsHandler, range, gets, mbind, Exec_bind.
  by rewrite Hs.
Qed.

Lemma bind_error_eta (m : Exec error) w :
  (m ≫= λ err, match err with Some r => mret (Some r) | None => mret None end) w = m w.
Proof.
  unfold mbind, Exec_bind, mret, Exec_ret.
  by destruct (m w) as [[[r|]|msg] w'].
Qed.

Lemma DeepCopy_run sa w :
  ∃ updated h',
    DeepCopy sa w = (Returns updated, set_heap h' w)
    ∧ sa_meta updated = sa_meta sa
    ∧ ∀ s, wf_slice (heap w) s → wf_slice h' s ∧ view h' s = view (heap w) s.
Proof.
  unfold DeepCopy. destruct (s_arr (ImagePullSecrets sa)) as [a|].
  - unfold make_copy.
    destruct (alloc (heap w) (view (heap w) (ImagePullSecrets sa))) as [a' h'] eqn:Ea.
    eexists _, h'. split; [done|]. split; [done|]. intros s Hs.
    replace h' with (alloc (heap w) (view (heap w) (ImagePullSecrets sa))).2
      by (by rewrite Ea).
    split; [by apply wf_slice_alloc | by apply view_alloc].
  - exists sa, (heap w). by destruct w.
Qed.

Lemma append_run s x w :
  wf_slice (heap w) s →
  ∃ s' h',
    append s x w = (Returns s', set_heap h' w)
    ∧ view h' s' = view (heap w) s ++ [x]
    ∧ view h' s = view (heap w) s.
Proof.
  intros Hwf. unfold append.
  pose proof (append_view zero_ref (heap w) s x Hwf) as Hv.
  pose proof (append_view_old zero_ref (heap w) s x Hwf) as Ho.
  destruct (Go.append zero_ref (heap w) s x) as [s' h']. by exists s', h'.
Qed.

Lemma ServiceAccounts_Update_run ns sa w :
  let wire := {| saw_meta := sa_meta sa; saw_pull := view (heap w) (ImagePullSecrets sa) |} in
  let key := (ns, Name (sa_meta sa)) in
  let r := ServiceAccounts_Update ns sa w in
  calls r.2 = calls w ++ [ServiceAccountsUpdate ns wire]
  ∧ faults r.2 = tail (faults w)
  ∧ heap r.2 = heap w
  ∧ secretsCache r.2 = secretsCache w
  ∧ indexerError r.2 = indexerError w
  ∧ secrets r.2 = secrets w
  ∧ (r.1, serviceAccounts r.2) =
      match faults w with
      | Some reason :: _ => (Returns (Some reason), serviceAccounts w)
      | _ =>
          match serviceAccounts w !! key with
          | None => (Returns (Some ReasonNotFound), serviceAccounts w)
          | Some _ => (Returns None, <[key := wire]> (serviceAccounts w))
          end
      end.
Proof.
  destruct w as [h cache ierr sec sas fl cl].
  unfold ServiceAccounts_Update, range, log, next_fault, gets, modify,
    mbind, mret, Exec_bind, Exec_ret; cbn.
  destruct fl as [|[reason|] fl]; cbn; [| done |];
    by destruct (sas !! (ns, Name (sa_meta sa))).
Qed.

Lemma serviceAccountsHandler_absent env sa w :
  wf_slice (heap w) (ImagePullSecrets sa) →
  scan env (view (heap w) (ImagePullSecrets sa)) = false →
  ∃ w',
    serviceAccountsHandler env sa w = ((serviceAccountsHandler env sa w).1, w')
    ∧ calls w' = calls w ++ [ServiceAccountsUpdate (Namespace (sa_meta sa)) (sentWire env sa w)]
    ∧ faults w' = tail (faults w)
    ∧ secretsCache w' = secretsCache w
    ∧ indexerError w' = indexerError w
    ∧ secrets w' = secrets w
    ∧ view (heap w') (ImagePullSecrets sa) = view (heap w) (ImagePullSecrets sa)
    ∧ ((serviceAccountsHandler env sa w).1, serviceAccounts w') =
        match faults w with
        | Some reason :: _ => (Returns (Some reason), serviceAccounts w)
        | _ =>
            match serviceAccounts w !! sa_key sa with
            | None => (Returns (Some ReasonNotFound), serviceAccounts w)
            | Some _ => (Returns None, <[sa_key sa := sentWire env sa w]> (serviceAccounts w))
            end
        end.
Proof.
  intros Hwf Hs.
  destruct (DeepCopy_run sa w) as (updated & h1 & Hcopy & Hmeta & Hkeep).
  destruct (Hkeep _ Hwf) as [Hwf1 Hview1].
  destruct (append_run (ImagePullSecrets sa) (newRef env) (set_heap h1 w) Hwf1)
    as (s' & h2 & Happ & Hnew & Hold).
  cbn [heap set_heap] in Hnew, Hold.
  assert (serviceAccountsHandler env sa w =
          ServiceAccounts_Update (Namespace (sa_meta sa))
            (with_ImagePullSecrets updated s') (set_heap h2 (set_heap h1 w))) as Heq.
  { unfold serviceAccountsHandler, range, gets.
    unfold mbind at 1. unfold Exec_bind at 1. rewrite Hs. cbn [negb].
    unfold mbind at 1. unfold Exec_bind at 1. rewrite Hcopy.
    unfold mbind at 1. unfold Exec_bind at 1. fold (newRef env). rewrite Happ.
    apply bind_error_eta. }
  pose proof (ServiceAccounts_Update_run (Namespace (sa_meta sa))
                (with_ImagePullSecrets updated s') (set_heap h2 (set_heap h1 w))) as Hup.
  cbn zeta in Hup. rewrite <-Heq in Hup. cbn [with_ImagePullSecrets sa_meta ImagePullSecrets
    heap set_heap calls faults secretsCache indexerError secrets serviceAccounts] in Hup.
  rewrite Hmeta, Hnew, Hview1 in Hup.
  destruct Hup as (Hc & Hf & Hh & Hsc & Hie & Hse & Hres).
  exists (serviceAccountsHandler env sa w).2. split; [by destruct (serviceAccountsHandler env sa w)|].
  repeat split; try done.
  rewrite Hh. by rewrite Hold.
Qed.
End ServiceAccountFacts.

Section SecretFacts.
Implicit Types (env : gmap string string) (secret cur : Secret) (w : World).

Lemma DeepEqual_true a b : DeepEqual a b = true ↔ a = b.
Proof. unfold DeepEqual. apply bool_decide_eq_true. Qed.

Lemma DeepEqual_false a b : DeepEqual a b = false ↔ a ≠ b.
Proof. unfold DeepEqual. apply bool_decide_eq_false. Qed.

Ltac run_secret w :=
  destruct w as [h cache ierr sec sas fl cl];
  unfold reconcileSecret, Lister_Get, Secrets_Create, Secrets_Update, load, store_Data,
    log, next_fault, gets, modify, panic, mbind, mret, Exec_bind, Exec_ret, secret_key;
  cbn.

(** A lister failure other than not-found leaves a nil pointer that is then read. *)
Lemma reconcileSecret_lister_error secret w reason :
  indexerError w = Some reason → reason ≠ ReasonNotFound →
  reconcileSecret secret w = (Panics nil_deref, w).
Proof.
  run_secret w. intros -> Hr. by destruct reason.
Qed.

Lemma reconcileSecret_cached_equal secret w cur :
  indexerError w = None →
  secretsCache w !! secret_key secret = Some cur →
  Data cur = Data secret →
  reconcileSecret secret w = (Returns Continue, w).
Proof.
  run_secret w. intros -> Hc Hd. cbn. rewrite Hc; cbn. rewrite Hc, Hd; cbn.
  by rewrite (proj2 (DeepEqual_true _ _) eq_refl).
Qed.

Lemma reconcileSecret_cached_differs secret w cur :
  indexerError w = None →
  secretsCache w !! secret_key secret = Some cur →
  Data cur ≠ Data secret →
  let sent := with_Data cur (Data secret) in
  let ukey := (Namespace (sec_meta secret), Name (sec_meta cur)) in
  let r := reconcileSecret secret w in
  calls r.2 = calls w ++ [SecretsUpdate (Namespace (sec_meta secret)) sent]
  ∧ faults r.2 = tail (faults w)
  ∧ secretsCache r.2 = <[secret_key secret := sent]> (secretsCache w)
  ∧ indexerError r.2 = None
  ∧ heap r.2 = heap w
  ∧ serviceAccounts r.2 = serviceAccounts w
  ∧ (r.1, secrets r.2) =
      match faults w with
      | Some reason :: _ => (Returns (Return (Some reason)), secrets w)
      | _ =>
          match secrets w !! ukey with
          | None => (Returns (Return (Some ReasonNotFound)), secrets w)
          | Some _ => (Returns Continue, <[ukey := sent]> (secrets w))
          end
      end.
Proof.
  run_secret w. intros -> Hc Hd. cbn. rewrite Hc; cbn. rewrite Hc; cbn.
  assert (DeepEqual (Data secret) (Data cur) = false) as -> by (by apply DeepEqual_false).
  cbn. rewrite lookup_alter_eq, Hc; cbn.
  assert (alter (λ s, with_Data s (Data secret))
            (Namespace (sec_meta secret), Name (sec_meta secret)) cache
          = <[(Namespace (sec_meta secret), Name (sec_meta secret)) :=
                with_Data cur (Data secret)]> cache) as ->.
  { apply map_eq; intros k.
    destruct (decide (k = (Namespace (sec_meta secret), Name (sec_meta secret)))) as [->|].
    - by rewrite lookup_alter_eq, lookup_insert_eq, Hc.
    - by rewrite lookup_alter_ne, lookup_insert_ne. }
  destruct fl as [|[reason|] fl]; cbn; [| done |];
    by destruct (sec !! (Namespace (sec_meta secret), Name (sec_meta cur))).
Qed.

Lemma reconcileSecret_missing secret w :
  indexerError w = Some ReasonNotFound
  ∨ (indexerError w = None ∧ secretsCache w !! secret_key secret = None) →
  let r := reconcileSecret secret w in
  calls r.2 = calls w ++ [SecretsCreate (Namespace (sec_meta secret)) secret]
  ∧ faults r.2 = tail (faults w)
  ∧ secretsCache r.2 = secretsCache w
  ∧ indexerError r.2 = indexerError w
  ∧ heap r.2 = heap w
  ∧ serviceAccounts r.2 = serviceAccounts w
  ∧ (r.1, secrets r.2) =
      match faults w with
      | Some reason :: _ => (Returns (Return (Some reason)), secrets w)
      | _ =>
          match secrets w !! secret_key secret with
          | Some _ => (Returns (Return (Some ReasonAlreadyExists)), secrets w)
          | None => (Returns Continue, <[secret_key secret := secret]> (secrets w))
          end
      end.
Proof.
  run_secret w. intros [-> | [-> Hc]]; cbn; [| rewrite Hc; cbn].
  all: destruct fl as [|[reason|] fl]; cbn; [| done |];
    (destruct (sec !! (Namespace (sec_meta secret), Name (sec_meta secret))); cbn; [done|]);
    by rewrite (proj2 (DeepEqual_true _ _) eq_refl).
Qed.
End SecretFacts.

Ltac close_res H :=
  first [ discriminate H
        | injection H as -> ->; reflexivity
        | injection H as ->; reflexivity ].

Section HandlerFacts.
Implicit Types (env : gmap string string) (ns : Namespace_) (w : World).

Lemma issued_app {A} (m : Exec A) w l :
  calls (m w).2 = calls w ++ l → issued m w = l.
Proof. unfold issued. intros ->. by rewrite drop_app_length. Qed.

Lemma issued_nil {A} (m : Exec A) w :
  calls (m w).2 = calls w → issued m w = [].
Proof. unfold issued. intros ->. by rewrite drop_all. Qed.

Lemma namespacesHandler_run env ns w :
  ∃ secret,
    generateSecrets env ns = [secret]
    ∧ secret_key secret = secretKey env ns
    ∧ Namespace (sec_meta secret) = Name (ns_meta ns)
    ∧ Data secret = desiredData env
    ∧ namespacesHandler env ns w =
        match reconcileSecret secret w with
        | (Returns Continue, w') => (Returns None, w')
        | (Returns (Return err), w') => (Returns err, w')
        | (Panics msg, w') => (Panics msg, w')
        end.
Proof.
  eexists. split; [reflexivity|]. repeat split.
  unfold namespacesHandler, generateSecrets. cbn [app forSecrets].
  unfold mbind, Exec_bind, mret, Exec_ret.
  by destruct (reconcileSecret _ w) as [[[|err]|msg] w'].
Qed.

(** The handler's effect when the lister finds nothing. *)
Lemma namespacesHandler_missing env ns w :
  indexerError w = Some ReasonNotFound
  ∨ (indexerError w = None ∧ secretsCache w !! secretKey env ns = None) →
  ∃ secret,
    generateSecrets env ns = [secret]
    ∧ issued (namespacesHandler env ns) w = [SecretsCreate (Name (ns_meta ns)) secret]
    ∧ secretsCache (namespacesHandler env ns w).2 = secretsCache w
    ∧ ((namespacesHandler env ns w).1, secrets (namespacesHandler env ns w).2) =
        match faults w with
        | Some reason :: _ => (Returns (Some reason), secrets w)
        | _ =>
            match secrets w !! secretKey env ns with
            | Some _ => (Returns (Some ReasonAlreadyExists), secrets w)
            | None => (Returns None, <[secretKey env ns := secret]> (secrets w))
            end
        end.
Proof.
  intros Hmiss.
  destruct (namespacesHandler_run env ns w) as (secret & Hgen & Hkey & Hns & Hdata & Hrun).
  exists secret. split; [done|]. rewrite <-Hkey in Hmiss.
  destruct (reconcileSecret_missing secret w Hmiss) as (Hc & Hf & Hsc & _ & _ & _ & Hres).
  rewrite Hns in Hc. rewrite Hkey in Hres.
  rewrite Hrun.
  destruct (reconcileSecret secret w) as [[[|err]|msg] w']; cbn [fst snd] in *.
  all: split; [by apply issued_app; rewrite Hrun|]; split; [done|].
  all: destruct (faults w) as [|[reason|] fl];
    try destruct (secrets w !! secretKey env ns); close_res Hres.
Qed.

Lemma namespacesHandler_cached_equal env ns w cur :
  indexerError w = None →
  secretsCache w !! secretKey env ns = Some cur →
  Data cur = desiredData env →
  namespacesHandler env ns w = (Returns None, w).
Proof.
  intros Hi Hc Hd.
  destruct (namespacesHandler_run env ns w) as (secret & Hgen & Hkey & Hns & Hdata & Hrun).
  rewrite Hrun, (reconcileSecret_cached_equal secret w cur); try done; congruence.
Qed.

Lemma namespacesHandler_cached_differs env ns w cur :
  indexerError w = None →
  secretsCache w !! secretKey env ns = Some cur →
  Data cur ≠ desiredData env →
  let sent := with_Data cur (desiredData env) in
  let ukey := (Name (ns_meta ns), Name (sec_meta cur)) in
  issued (namespacesHandler env ns) w = [SecretsUpdate (Name (ns_meta ns)) sent]
  ∧ secretsCache (namespacesHandler env ns w).2 = <[secretKey env ns := sent]> (secretsCache w)
  ∧ ((namespacesHandler env ns w).1, secrets (namespacesHandler env ns w).2) =
      match faults w with
      | Some reason :: _ => (Returns (Some reason), secrets w)
      | _ =>
          match secrets w !! ukey with
          | None => (Returns (Some ReasonNotFound), secrets w)
          | Some _ => (Returns None, <[ukey := sent]> (secrets w))
          end
      end.
Proof.
  intros Hi Hc Hd.
  destruct (namespacesHandler_run env ns w) as (secret & Hgen & Hkey & Hns & Hdata & Hrun).
  rewrite <-Hkey in Hc. rewrite <-Hdata in Hd.
  destruct (reconcileSecret_cached_differs secret w cur Hi Hc Hd)
    as (Hcalls & Hf & Hsc & _ & _ & _ & Hres).
  rewrite Hns, Hdata in Hcalls. rewrite Hkey, Hdata in Hsc. rewrite Hns, Hdata in Hres.
  rewrite Hrun.
  destruct (reconcileSecret secret w) as [[[|err]|msg] w']; cbn [fst snd] in *.
  all: split; [by apply issued_app; rewrite Hrun|]; split; [done|].
  all: destruct (faults w) as [|[reason|] fl];
    try destruct (secrets w !! (Name (ns_meta ns), Name (sec_meta cur))); close_res Hres.
Qed.

Lemma namespacesHandler_lister_error env ns w reason :
  indexerError w = Some reason → reason ≠ ReasonNotFound →
  namespacesHandler env ns w = (Panics nil_deref, w).
Proof.
  intros Hi Hr.
  destruct (namespacesHandler_run env ns w) as (secret & _ & _ & _ & _ & Hrun).
  by rewrite Hrun, (reconcileSecret_lister_error secret w reason).
Qed.
End HandlerFacts.

Section ClaimsServiceAccounts.
Implicit Types (env : gmap string string) (sa : ServiceAccount) (w : World).

(** C1 (as amended).  When none of the account's pull secrets carries the
    configured name, a successful run of the service-account handler
    issues exactly one update; the list it sends, which the cluster then
    stores, has one entry more than the original, starts with the original
    entries in their order and ends with the configured name, which occurs
    nowhere else in it.  The entries are pairwise distinct exactly when the
    original ones were. *)
Theorem serviceAccountsHandler_appends_name env sa w :
  wf_slice (heap w) (ImagePullSecrets sa) →
  Getenv env AURORA_SECRET_NAME ∉ (RefName <$> view (heap w) (ImagePullSecrets sa)) →
  (serviceAccountsHandler env sa w).1 = Returns None →
  let refs := view (heap w) (ImagePullSecrets sa) in
  let sent := refs ++ [newRef env] in
  issued (serviceAccountsHandler env sa) w
    = [ServiceAccountsUpdate (Namespace (sa_meta sa))
         {| saw_meta := sa_meta sa; saw_pull := sent |}]
  ∧ serviceAccounts (serviceAccountsHandler env sa w).2 !! sa_key sa
    = Some {| saw_meta := sa_meta sa; saw_pull := sent |}
  ∧ length sent = S (length refs)
  ∧ take (length refs) sent = refs
  ∧ last sent = Some (newRef env)
  ∧ (newRef env ∉ refs)
  ∧ (NoDup sent ↔ NoDup refs).
Proof.
  intros Hwf Habsent Hok refs sent.
  pose proof Habsent as Hscan. apply scan_false in Hscan.
  destruct (serviceAccountsHandler_absent env sa w Hwf Hscan)
    as (w' & Hw' & Hcalls & _ & _ & _ & _ & _ & Hres).
  assert (newRef env ∉ refs) as Hnew.
  { intros Hin. apply Habsent. apply list_elem_of_fmap. by exists (newRef env). }
  split; [apply issued_app; by rewrite Hw'|].
  split.
  { rewrite Hw'. cbn [snd]. rewrite Hok in Hres. fold (sa_key sa) in Hres.
    destruct (faults w) as [|[reason|] fl]; [| discriminate Hres |];
      (destruct (serviceAccounts w !! sa_key sa); [| discriminate Hres]);
      injection Hres as ->; apply lookup_insert_eq. }
  split; [unfold sent; rewrite length_app; cbn; lia|].
  split; [apply take_app_length|].
  split; [apply last_snoc|].
  split; [done|].
  unfold sent. rewrite NoDup_app. split; [by intros (? & _)|].
  intros Hnd. split; [done|]. split; [|apply NoDup_singleton].
  intros x Hx ->%list_elem_of_singleton. done.
Qed.

Lemma serviceAccountsHandler_appends_name_witness :
  issued (serviceAccountsHandler env_regcred builder) world_builder
  = [ServiceAccountsUpdate "team-a"
       {| saw_meta := meta "builder" "team-a" "41";
          saw_pull := [ref "quay"; ref "ghcr"; ref "internal"; ref "regcred"] |}].
Proof.
  refine (proj1 (serviceAccountsHandler_appends_name env_regcred builder world_builder _ _ _)).
  - exists [ref "quay"; ref "ghcr"; ref "internal"; zero_ref]. vm_compute. repeat split. lia.
  - apply (bool_decide_unpack _). vm_compute. exact I.
  - vm_compute. reflexivity.
Defined.

(** C1 as stated fails: an account that lists one pull secret twice keeps
    the duplicate, so the list sent is not made of distinct entries. *)
Lemma duplicate_entries_stay_duplicated :
  wf_slice (heap world_twins) (ImagePullSecrets twins)
  ∧ (Getenv env_regcred AURORA_SECRET_NAME
       ∉ (RefName <$> view (heap world_twins) (ImagePullSecrets twins)))
  ∧ (serviceAccountsHandler env_regcred twins world_twins).1 = Returns None
  ∧ ∃ sent,
      issued (serviceAccountsHandler env_regcred twins) world_twins
        = [ServiceAccountsUpdate "team-a" sent]
      ∧ length (saw_pull sent) = 3
      ∧ ¬ NoDup (saw_pull sent).
Proof.
  split; [exists [ref "quay"; ref "quay"]; vm_compute; repeat split; lia|].
  split; [apply (bool_decide_unpack _); vm_compute; exact I|].
  split; [vm_compute; reflexivity|].
  eexists. split; [vm_compute; reflexivity|]. split; [reflexivity|].
  cbn. intros Hnd. apply NoDup_cons in Hnd as [Hin _]. apply Hin. left.
Qed.

(** C2 (as amended).  On every account the first run issues at most one
    update; when the configured name is already listed the run succeeds
    without any call and leaves the world as it is; and after a successful
    first run, a second run on the account as the cluster then stores it
    succeeds without any call. *)
Theorem serviceAccountsHandler_idempotent env sa w :
  wf_slice (heap w) (ImagePullSecrets sa) →
  length (issued (serviceAccountsHandler env sa) w) ≤ 1
  ∧ (Getenv env AURORA_SECRET_NAME ∈ (RefName <$> view (heap w) (ImagePullSecrets sa)) →
     serviceAccountsHandler env sa w = (Returns None, w))
  ∧ (sa_in_sync w sa →
     (serviceAccountsHandler env sa w).1 = Returns None →
     ∀ sa', sa_key sa' = sa_key sa →
       sa_in_sync (serviceAccountsHandler env sa w).2 sa' →
       serviceAccountsHandler env sa' (serviceAccountsHandler env sa w).2
       = (Returns None, (serviceAccountsHandler env sa w).2)).
Proof.
  intros Hwf.
  destruct (scan env (view (heap w) (ImagePullSecrets sa))) eqn:Hscan.
  - pose proof (serviceAccountsHandler_present env sa w Hscan) as Hrun.
    split; [rewrite (issued_nil _ w) by (by rewrite Hrun); cbn; lia|].
    split; [done|].
    intros Hsync _ sa' Hkey Hsync'. rewrite Hrun in *. cbn [snd] in *.
    apply serviceAccountsHandler_present.
    unfold sa_in_sync in *. rewrite Hkey, Hsync in Hsync'.
    injection Hsync' as _ Hpull. by rewrite <-Hpull.
  - destruct (serviceAccountsHandler_absent env sa w Hwf Hscan)
      as (w' & Hw' & Hcalls & _ & _ & _ & _ & _ & Hres).
    split; [erewrite (issued_app _ w) by (by rewrite Hw'); cbn; lia|].
    split; [intros Hin%scan_spec; congruence|].
    intros _ Hok sa' Hkey Hsync'. rewrite Hw' in Hsync' |- *. cbn [snd] in *.
    apply serviceAccountsHandler_present.
    unfold sa_in_sync in Hsync'. rewrite Hkey in Hsync'.
    rewrite Hok in Hres.
    assert (serviceAccounts w' !! sa_key sa = Some (sentWire env sa w)) as Hstored.
    { destruct (faults w) as [|[reason|] fl]; [| discriminate Hres |];
        (destruct (serviceAccounts w !! sa_key sa); [| discriminate Hres]);
        injection Hres as ->; apply lookup_insert_eq. }
    rewrite Hstored in Hsync'. injection Hsync' as _ Hpull. rewrite <-Hpull.
    apply scan_spec. rewrite fmap_app. apply elem_of_app. right. cbn. left.
Qed.

Lemma serviceAccountsHandler_idempotent_witness :
  serviceAccountsHandler env_regcred builder_updated
    (serviceAccountsHandler env_regcred builder world_builder).2
  = (Returns None, (serviceAccountsHandler env_regcred builder world_builder).2).
Proof.
  refine (proj2 (proj2 (serviceAccountsHandler_idempotent env_regcred builder world_builder _))
            _ _ builder_updated _ _).
  - exists [ref "quay"; ref "ghcr"; ref "internal"; zero_ref]. vm_compute. repeat split. lia.
  - vm_compute. reflexivity.
  - vm_compute. reflexivity.
  - reflexivity.
  - vm_compute. reflexivity.
Defined.

(** C2 as stated fails: when the first update is refused the account is
    still in the state it was in, and the second run sends the update
    again. *)
Lemma failed_update_is_sent_again :
  let w0 := set_faults [Some ReasonConflict] world_builder in
  let w1 := (serviceAccountsHandler env_regcred builder w0).2 in
  sa_in_sync w0 builder
  ∧ (serviceAccountsHandler env_regcred builder w0).1 = Returns (Some ReasonConflict)
  ∧ sa_in_sync w1 builder
  ∧ length (issued (serviceAccountsHandler env_regcred builder) w0) = 1
  ∧ length (issued (serviceAccountsHandler env_regcred builder) w1) = 1.
Proof. repeat split; vm_compute; reflexivity. Qed.

(** C9: the code at the failing input.  The cached account's three pull
    secrets sit in an array of four; the handler's [append] writes the new
    reference into the fourth cell of that very array, which the object
    sent to the API server then shares.  Likewise the namespace handler
    assigns the new payload to the cached secret before it calls the API,
    so the cache shows the new payload even when the update is refused. *)
Theorem serviceAccountsHandler_writes_cached_array :
  let w' := (serviceAccountsHandler env_regcred builder world_builder).2 in
  let w'' := (namespacesHandler env_regcred team_a
                (set_faults [Some ReasonServerTimeout] world_drifted)).2 in
  backing (heap world_builder) (ImagePullSecrets builder)
    = Some [ref "quay"; ref "ghcr"; ref "internal"; zero_ref]
  ∧ backing (heap w') (ImagePullSecrets builder)
    = Some [ref "quay"; ref "ghcr"; ref "internal"; ref "regcred"]
  ∧ secretsCache world_drifted !! ("team-a", "regcred") = Some drifted
  ∧ secretsCache w'' !! ("team-a", "regcred")
    = Some (with_Data drifted (desiredData env_regcred))
  ∧ secrets w'' !! ("team-a", "regcred") = Some drifted.
Proof. repeat split; vm_compute; reflexivity. Qed.
End ClaimsServiceAccounts.

Section ClaimsNamespaces.
Implicit Types (env : gmap string string) (ns : Namespace_) (w : World).

(** C3 (as amended).  If the cache agrees with the cluster on the secret
    when the run starts, then after a successful run of the namespace
    handler the cluster holds a secret under the configured name in that
    namespace whose [.dockerconfigjson] entry is the configured payload,
    byte for byte; and a run with the same configuration on any world
    whose cache shows that secret as the cluster now stores it succeeds
    without a single call and changes nothing. *)
Theorem namespacesHandler_converges env ns w :
  keyed_by_name (secretsCache w) →
  secretsCache w !! secretKey env ns = secrets w !! secretKey env ns →
  (namespacesHandler env ns w).1 = Returns None →
  let w1 := (namespacesHandler env ns w).2 in
  (∃ stored,
      secrets w1 !! secretKey env ns = Some stored
      ∧ Data stored !! dockerconfigjson
        = Some (bytes_of_string (Getenv env AURORA_SECRET_DOCKERCONFIGJSON)))
  ∧ ∀ w2,
      indexerError w2 = None →
      secretsCache w2 !! secretKey env ns = secrets w1 !! secretKey env ns →
      namespacesHandler env ns w2 = (Returns None, w2).
Proof.
  intros Hkeyed Hsync Hok w1.
  assert (∃ stored, secrets w1 !! secretKey env ns = Some stored
                    ∧ Data stored = desiredData env) as (stored & Hstored & Hdata).
  { subst w1. destruct (indexerError w) as [reason|] eqn:Hi.
    - destruct (decide (reason = ReasonNotFound)) as [->|Hne].
      + destruct (namespacesHandler_missing env ns w (or_introl Hi))
          as (secret & Hgen & _ & _ & Hres).
        rewrite Hok in Hres. exists secret. split.
        * destruct (faults w) as [|[r|] fl]; [| discriminate Hres |];
            (destruct (secrets w !! secretKey env ns); [discriminate Hres|]);
            injection Hres as ->; apply lookup_insert_eq.
        * by injection Hgen as <-.
      + rewrite (namespacesHandler_lister_error env ns w reason Hi Hne) in Hok.
        discriminate Hok.
    - destruct (secretsCache w !! secretKey env ns) as [cur|] eqn:Hc.
      + destruct (decide (Data cur = desiredData env)) as [Heq|Hne].
        * rewrite (namespacesHandler_cached_equal env ns w cur Hi Hc Heq).
          cbn [snd]. exists cur. by rewrite <-Hsync.
        * destruct (namespacesHandler_cached_differs env ns w cur Hi Hc Hne)
            as (_ & _ & Hres).
          rewrite Hok in Hres.
          assert (Name (sec_meta cur) = Getenv env AURORA_SECRET_NAME) as Hname.
          { pose proof (Hkeyed _ _ Hc) as Hk. unfold secret_key, secretKey in Hk.
            by injection Hk. }
          rewrite Hname in Hres. fold (secretKey env ns) in Hres.
          exists (with_Data cur (desiredData env)). split; [|done].
          destruct (faults w) as [|[r|] fl]; [| discriminate Hres |];
            (destruct (secrets w !! secretKey env ns); [|discriminate Hres]);
            injection Hres as ->; apply lookup_insert_eq.
      + destruct (namespacesHandler_missing env ns w (or_intror (conj Hi Hc)))
          as (secret & Hgen & _ & _ & Hres).
        rewrite Hok in Hres. exists secret. split.
        * destruct (faults w) as [|[r|] fl]; [| discriminate Hres |];
            (destruct (secrets w !! secretKey env ns); [discriminate Hres|]);
            injection Hres as ->; apply lookup_insert_eq.
        * by injection Hgen as <-. }
  split.
  - exists stored. split; [done|]. rewrite Hdata. apply lookup_singleton_eq.
  - intros w2 Hi2 Hc2. rewrite Hstored in Hc2.
    by apply (namespacesHandler_cached_equal env ns w2 stored).
Qed.

Lemma namespacesHandler_converges_witness :
  (∃ stored,
      secrets (namespacesHandler env_regcred team_a world_drifted).2
        !! secretKey env_regcred team_a = Some stored
      ∧ Data stored !! dockerconfigjson = Some (bytes_of_string "{}"))
  ∧ namespacesHandler env_regcred team_a world_synced = (Returns None, world_synced).
Proof.
  assert (keyed_by_name (secretsCache world_drifted)) as Hkeyed.
  { apply (bool_decide_unpack _). vm_compute. exact I. }
  assert (secretsCache world_drifted !! secretKey env_regcred team_a
          = secrets world_drifted !! secretKey env_regcred team_a) as Hsync
    by (vm_compute; reflexivity).
  assert ((namespacesHandler env_regcred team_a world_drifted).1 = Returns None) as Hok
    by (vm_compute; reflexivity).
  destruct (namespacesHandler_converges env_regcred team_a world_drifted Hkeyed Hsync Hok)
    as [Hex Hagain].
  split; [exact Hex|]. apply Hagain; vm_compute; reflexivity.
Defined.

(** C3 as stated fails: with the cache left unchanged after the first run
    created the secret, the second run does not find it and issues the
    create again. *)
Lemma unchanged_cache_repeats_create :
  let w1 := (namespacesHandler env_regcred team_a bare_world).2 in
  (namespacesHandler env_regcred team_a bare_world).1 = Returns None
  ∧ secretsCache w1 = secretsCache bare_world
  ∧ (namespacesHandler env_regcred team_a w1).1 = Returns (Some ReasonAlreadyExists)
  ∧ ∃ secret,
      issued (namespacesHandler env_regcred team_a) w1 = [SecretsCreate "team-a" secret].
Proof.
  split; [vm_compute; reflexivity|]. split; [vm_compute; reflexivity|].
  split; [vm_compute; reflexivity|]. eexists. vm_compute. reflexivity.
Qed.

(** C4 (as amended).  The namespace handler compares the whole [Data] map
    of the secret the lister finds with the configured one, which holds the
    configured payload under [.dockerconfigjson] and nothing else.  When they
    differ (another payload, or any further entry) it issues exactly one
    call, an update of that secret in which [Data] is replaced as a whole and
    metadata and type are those of the secret found, and on success the
    cluster stores that object; when they are equal it issues no call and
    changes nothing. *)
Theorem namespacesHandler_updates_in_place env ns w current :
  indexerError w = None →
  secretsCache w !! secretKey env ns = Some current →
  (Data current = desiredData env
   ↔ Data current !! dockerconfigjson
       = Some (bytes_of_string (Getenv env AURORA_SECRET_DOCKERCONFIGJSON))
     ∧ ∀ key, key ≠ dockerconfigjson → Data current !! key = None)
  ∧ (Data current ≠ desiredData env →
     ∃ sent,
       issued (namespacesHandler env ns) w = [SecretsUpdate (Name (ns_meta ns)) sent]
       ∧ Data sent = desiredData env
       ∧ sec_meta sent = sec_meta current
       ∧ Type_ sent = Type_ current
       ∧ sec_type_meta sent = sec_type_meta current
       ∧ ((namespacesHandler env ns w).1 = Returns None →
          secrets (namespacesHandler env ns w).2
            !! (Name (ns_meta ns), Name (sec_meta current)) = Some sent))
  ∧ (Data current = desiredData env →
     namespacesHandler env ns w = (Returns None, w)
     ∧ issued (namespacesHandler env ns) w = []).
Proof.
  intros Hi Hc. split; [|split].
  - unfold desiredData. split.
    + intros ->. split; [apply lookup_singleton_eq|].
      intros key Hkey. by apply lookup_singleton_ne.
    + intros [Hpayload Hrest]. apply map_eq. intros key.
      destruct (decide (key = dockerconfigjson)) as [->|Hkey].
      * by rewrite lookup_singleton_eq.
      * rewrite lookup_singleton_ne by done. by apply Hrest.
  - intros Hne.
    destruct (namespacesHandler_cached_differs env ns w current Hi Hc Hne)
      as (Hcalls & _ & Hres).
    exists (with_Data current (desiredData env)). repeat (split; [done|]).
    intros Hok. rewrite Hok in Hres.
    destruct (faults w) as [|[reason|] fl]; [| discriminate Hres |];
      (destruct (secrets w !! (Name (ns_meta ns), Name (sec_meta current)));
         [|discriminate Hres]);
      injection Hres as ->; apply lookup_insert_eq.
  - intros Heq.
    pose proof (namespacesHandler_cached_equal env ns w current Hi Hc Heq) as Hrun.
    split; [done|]. apply issued_nil. by rewrite Hrun.
Qed.

Lemma namespacesHandler_updates_in_place_witness :
  ∃ sent,
    issued (namespacesHandler env_regcred team_a) world_drifted
      = [SecretsUpdate "team-a" sent]
    ∧ Data sent = desiredData env_regcred
    ∧ sec_meta sent = sec_meta drifted
    ∧ Type_ sent = Type_ drifted
    ∧ sec_type_meta sent = sec_type_meta drifted
    ∧ secrets (namespacesHandler env_regcred team_a world_drifted).2
        !! ("team-a", "regcred") = Some sent.
Proof.
  assert (indexerError world_drifted = None) as Hi by reflexivity.
  assert (secretsCache world_drifted !! secretKey env_regcred team_a = Some drifted) as Hc
    by (vm_compute; reflexivity).
  assert (Data drifted ≠ desiredData env_regcred) as Hne
    by (apply (bool_decide_unpack _); vm_compute; exact I).
  destruct (proj1 (proj2 (namespacesHandler_updates_in_place env_regcred team_a
                            world_drifted drifted Hi Hc)) Hne)
    as (sent & Hcalls & Hdata & Hmeta & Htype & Htm & Hstored).
  exists sent. repeat (split; [assumption|]).
  apply Hstored. vm_compute. reflexivity.
Defined.

(** C4 as stated fails: a secret whose [.dockerconfigjson] entry is the
    configured payload, byte for byte, but which has one more entry, is
    updated all the same, and the update drops that entry. *)
Lemma matching_payload_with_other_entry_is_updated :
  indexerError world_annotated = None
  ∧ secretsCache world_annotated !! secretKey env_regcred team_a = Some annotated
  ∧ Data annotated !! dockerconfigjson
    = Some (bytes_of_string (Getenv env_regcred AURORA_SECRET_DOCKERCONFIGJSON))
  ∧ Data annotated !! "note" = Some (bytes_of_string "keep")
  ∧ ∃ sent,
      issued (namespacesHandler env_regcred team_a) world_annotated
        = [SecretsUpdate "team-a" sent]
      ∧ Data sent !! "note" = None.
Proof.
  split; [reflexivity|]. split; [vm_compute; reflexivity|].
  split; [vm_compute; reflexivity|]. split; [vm_compute; reflexivity|].
  eexists. split; vm_compute; reflexivity.
Qed.


(** C10.  Every call the namespace handler issues is a create or an
    update of a secret; it never issues a delete. *)
Theorem namespacesHandler_never_deletes env ns w :
  Forall (λ c, create_or_update c = true ∧ is_delete c = false)
    (issued (namespacesHandler env ns) w).
Proof.
  destruct (indexerError w) as [reason|] eqn:Hi.
  - destruct (decide (reason = ReasonNotFound)) as [->|Hne].
    + destruct (namespacesHandler_missing env ns w (or_introl Hi)) as (secret & _ & -> & _).
      by repeat constructor.
    + rewrite (issued_nil _ w); [constructor|].
      by rewrite (namespacesHandler_lister_error env ns w reason Hi Hne).
  - destruct (secretsCache w !! secretKey env ns) as [cur|] eqn:Hc.
    + destruct (decide (Data cur = desiredData env)) as [Heq|Hne].
      * rewrite (issued_nil _ w); [constructor|].
        by rewrite (namespacesHandler_cached_equal env ns w cur Hi Hc Heq).
      * destruct (namespacesHandler_cached_differs env ns w cur Hi Hc Hne) as (-> & _).
        by repeat constructor.
    + destruct (namespacesHandler_missing env ns w (or_intror (conj Hi Hc)))
        as (secret & _ & -> & _).
      by repeat constructor.
Qed.
End ClaimsNamespaces.

Section ClaimsEvents.

Lemma update_with_new_resourceVersion_enqueued old new :
  ResourceVersion (sa_meta new) ≠ ResourceVersion (sa_meta old) →
  deliverUpdate (ServiceAccountUpdated old new)
  = Returns [HandleObject controllerServiceAccounts (ObjServiceAccount new)].
Proof.
  intros Hne. cbn.
  by destruct (String.eqb_spec (ResourceVersion (sa_meta new)) (ResourceVersion (sa_meta old))).
Qed.

(** C5.  An update notification, for a service account or for a secret,
    whose old and new object carry the same resource version makes the
    registered handler return without any call to [HandleObject]. *)
Theorem unchanged_resourceVersion_not_enqueued (n : UpdateNotification) :
  sameResourceVersion n → deliverUpdate n = Returns [].
Proof.
  destruct n as [old new|old new]; cbn; intros ->; by rewrite String.eqb_refl.
Qed.

Lemma unchanged_resourceVersion_not_enqueued_witness :
  deliverUpdate resync = Returns [].
Proof. apply (unchanged_resourceVersion_not_enqueued resync). reflexivity. Defined.

End ClaimsEvents.

Section ClaimsStartup.
Implicit Types (env : gmap string string) (boot : Boot).

Lemma WaitForCacheSync_two stop a b :
  WaitForCacheSync stop [a; b] =
    match a, b, stop with
    | Some ta, Some tb, Some s =>
        if decide (ta ≤ s ∧ tb ≤ s) then WaitSynced else WaitStopped
    | Some _, Some _, None => WaitSynced
    | _, _, Some _ => WaitStopped
    | _, _, None => WaitForever
    end.
Proof.
  unfold WaitForCacheSync. destruct a as [ta|], b as [tb|], stop as [s|]; cbn; try done.
  repeat case_decide; try done; lia.
Qed.

(** C7 (as amended).  Once the two clients are built, [Run] starts the
    controllers exactly when the service-account informer and the secret
    informer have both synced before the stop channel closes; if the stop
    channel closes first it ends fatally, and with neither it keeps waiting.
    Whether the namespace informer has synced plays no part. *)
Theorem Run_waits_for_serviceaccounts_and_secrets env boot :
  BuildConfigFromFlags_ok boot = true →
  NewForConfig_ok boot = true →
  (∀ runs, Run env boot = Started runs →
     runs = bothStarted
     ∧ syncedInTime boot serviceAccountsInformer = true
     ∧ syncedInTime boot secretsInformer = true)
  ∧ (syncedInTime boot serviceAccountsInformer && syncedInTime boot secretsInformer = true →
     Run env boot = Started bothStarted)
  ∧ (syncedInTime boot serviceAccountsInformer && syncedInTime boot secretsInformer = false →
     Run env boot = match stopCh boot with
                    | Some _ => Fatal cache_sync_failed
                    | None => Blocked
                    end)
  ∧ (∀ f, (∀ i, i ≠ namespaceInformer → f i = HasSynced boot i) →
     Run env (with_HasSynced boot f) = Run env boot).
Proof.
  intros Hcfg Hcli. unfold Run, syncedInTime. rewrite Hcfg, Hcli. cbn [negb].
  rewrite WaitForCacheSync_two.
  split; [|split; [|split]].
  - intros runs.
    destruct (HasSynced boot serviceAccountsInformer) as [ta|],
      (HasSynced boot secretsInformer) as [tb|], (stopCh boot) as [s|];
      try case_decide; try discriminate; intros [= <-]; repeat split;
      apply bool_decide_eq_true; lia.
  - destruct (HasSynced boot serviceAccountsInformer) as [ta|],
      (HasSynced boot secretsInformer) as [tb|], (stopCh boot) as [s|];
      cbn; rewrite ?andb_false_r; try discriminate; try done.
    intros [?%bool_decide_eq_true ?%bool_decide_eq_true]%andb_true_iff.
    by rewrite decide_True.
  - destruct (HasSynced boot serviceAccountsInformer) as [ta|],
      (HasSynced boot secretsInformer) as [tb|], (stopCh boot) as [s|];
      cbn; rewrite ?andb_false_r; try discriminate; try done.
    intros [?%bool_decide_eq_false | ?%bool_decide_eq_false]%andb_false_iff;
      rewrite decide_False; try done; lia.
  - intros f Hf. cbn. rewrite Hcfg, Hcli. cbn [negb].
    by rewrite !Hf, WaitForCacheSync_two.
Qed.

Lemma Run_waits_for_serviceaccounts_and_secrets_witness :
  Run env_regcred boot_stopped = Fatal cache_sync_failed.
Proof.
  refine (proj1 (proj2 (proj2
    (Run_waits_for_serviceaccounts_and_secrets env_regcred boot_stopped _ _))) _);
    reflexivity.
Defined.

(** C7 as stated fails: the controllers are started although the namespace
    informer never reports that it has synced. *)
Lemma namespace_informer_not_awaited :
  HasSynced boot_ready namespaceInformer = None
  ∧ Run env_regcred boot_ready = Started bothStarted.
Proof. split; reflexivity. Qed.

(** C8 (as amended).  Start-up never looks at the environment, so it ends
    the same way whether the two variables are set or not; with the name
    unset the handlers work with the empty name (the reference appended to
    service accounts and the name of the generated secret), and with the
    payload unset the generated secret carries an empty payload. *)
Theorem unset_configuration_goes_unnoticed env boot ns :
  (∀ env', Run env' boot = Run env boot)
  ∧ (env !! AURORA_SECRET_NAME = None →
     newRef env = {| RefName := "" |}
     ∧ ∀ secret, secret ∈ generateSecrets env ns → Name (sec_meta secret) = "")
  ∧ (env !! AURORA_SECRET_DOCKERCONFIGJSON = None →
     ∀ secret, secret ∈ generateSecrets env ns →
       Data secret = {[ dockerconfigjson := Bytes [] ]}).
Proof.
  split; [done|]. unfold newRef, generateSecrets, Getenv. split.
  - intros ->. split; [done|]. by intros secret ->%list_elem_of_singleton.
  - intros ->. by intros secret ->%list_elem_of_singleton.
Qed.

Lemma unset_configuration_goes_unnoticed_witness :
  newRef ∅ = {| RefName := "" |}
  ∧ ∀ secret, secret ∈ generateSecrets ∅ team_a → Name (sec_meta secret) = "".
Proof.
  refine (proj1 (proj2 (unset_configuration_goes_unnoticed ∅ boot_ready team_a)) _).
  reflexivity.
Defined.

(** C8 as stated fails: with neither variable set, start-up goes through
    and the namespace handler asks the API server for a secret with an
    empty name and an empty payload. *)
Lemma unset_environment_is_reconciled :
  (∅ : gmap string string) !! AURORA_SECRET_NAME = None
  ∧ (∅ : gmap string string) !! AURORA_SECRET_DOCKERCONFIGJSON = None
  ∧ Run ∅ boot_ready = Started bothStarted
  ∧ issued (namespacesHandler ∅ team_a) bare_world
    = [SecretsCreate "team-a"
         {| sec_type_meta := {| APIVersion := "core/v1"; Kind := "Secret" |};
            sec_meta := meta "" "team-a" "";
            Type_ := SecretTypeDockerConfigJson;
            Data := {[ dockerconfigjson := Bytes [] ]} |}].
Proof. repeat split; vm_compute; reflexivity. Qed.

End ClaimsStartup.

Section Robustness.
Implicit Types (env : gmap string string) (sa : ServiceAccount) (w : World).

(** Three appends to the nil slice end in an array of four cells, one of
    them spare: the shape of [builder]'s pull-secret list. *)
Lemma three_appends_leave_a_spare_cell :
  ∃ a, (appendAll [ref "quay"; ref "ghcr"; ref "internal"] bare_world).1
       = Returns (Slice (Some a) 3 4).
Proof. eexists. vm_compute. reflexivity. Qed.

(** X1.  The service-account handler has no panicking step: on every
    account and in every world it returns success or an error. *)
Lemma serviceAccountsHandler_returns env sa w :
  ∃ err, (serviceAccountsHandler env sa w).1 = Returns err.
Proof.
  destruct (scan env (view (heap w) (ImagePullSecrets sa))) eqn:Hscan.
  - exists None. by rewrite serviceAccountsHandler_present.
  - destruct (DeepCopy_run sa w) as (updated & h1 & Hcopy & _).
    unfold serviceAccountsHandler, range, gets.
    unfold mbind at 1. unfold Exec_bind at 1. rewrite Hscan. cbn [negb].
    unfold mbind at 1. unfold Exec_bind at 1. rewrite Hcopy.
    unfold mbind at 1. unfold Exec_bind at 1. unfold append at 1.
    destruct (Go.append zero_ref (heap (set_heap h1 w)) (ImagePullSecrets sa) _) as [s' h2].
    rewrite bind_error_eta.
    pose proof (ServiceAccounts_Update_run (Namespace (sa_meta sa))
                  (with_ImagePullSecrets updated s') (set_heap h2 (set_heap h1 w)))
      as (_ & _ & _ & _ & _ & _ & Hres).
    destruct (faults (set_heap h2 (set_heap h1 w))) as [|[reason|] fl];
      try destruct (serviceAccounts (set_heap h2 (set_heap h1 w)) !! _);
      injection Hres as -> _; eauto.
Qed.

(** X2.  Neither has the namespace handler, as long as the lister answers
    with an object or with not-found. *)
Lemma namespacesHandler_returns env (ns : Namespace_) w :
  indexerError w = None ∨ indexerError w = Some ReasonNotFound →
  ∃ err, (namespacesHandler env ns w).1 = Returns err.
Proof.
  intros [Hi|Hi].
  - destruct (secretsCache w !! secretKey env ns) as [cur|] eqn:Hc.
    + destruct (decide (Data cur = desiredData env)) as [Heq|Hne].
      * exists None. by rewrite (namespacesHandler_cached_equal env ns w cur).
      * destruct (namespacesHandler_cached_differs env ns w cur Hi Hc Hne) as (_ & _ & Hres).
        destruct (faults w) as [|[reason|] fl];
          try destruct (secrets w !! _); injection Hres as -> _; eauto.
    + destruct (namespacesHandler_missing env ns w (or_intror (conj Hi Hc)))
        as (secret & _ & _ & _ & Hres).
      destruct (faults w) as [|[reason|] fl];
        try destruct (secrets w !! _); injection Hres as -> _; eauto.
  - destruct (namespacesHandler_missing env ns w (or_introl Hi))
      as (secret & _ & _ & _ & Hres).
    destruct (faults w) as [|[reason|] fl];
      try destruct (secrets w !! _); injection Hres as -> _; eauto.
Qed.

(** X3.  Every other lister error makes it panic before any call is
    issued. *)
Lemma namespacesHandler_panics env (ns : Namespace_) w reason :
  indexerError w = Some reason → reason ≠ ReasonNotFound →
  (namespacesHandler env ns w).1 = Panics nil_deref
  ∧ issued (namespacesHandler env ns) w = [].
Proof.
  intros Hi Hne. rewrite (issued_nil _ w);
    by rewrite (namespacesHandler_lister_error env ns w reason Hi Hne).
Qed.

(** X4.  With the name missing and room left in the array, the cell right
    after the cached list is overwritten with the new reference. *)
Lemma serviceAccountsHandler_overwrites_spare_cell env sa w a arr :
  s_arr (ImagePullSecrets sa) = Some a →
  heap w !! a = Some arr →
  s_len (ImagePullSecrets sa) < s_cap (ImagePullSecrets sa) →
  scan env (view (heap w) (ImagePullSecrets sa)) = false →
  heap (serviceAccountsHandler env sa w).2 !! a
  = Some (<[s_len (ImagePullSecrets sa) := newRef env]> arr).
Proof.
  intros Ha Harr Hroom Hscan.
  unfold serviceAccountsHandler, range, gets.
  unfold mbind at 1. unfold Exec_bind at 1. rewrite Hscan. cbn [negb].
  unfold DeepCopy. rewrite Ha. unfold make_copy, alloc.
  unfold mbind at 1. unfold Exec_bind at 1.
  unfold mbind at 1. unfold Exec_bind at 1.
  unfold append at 1. unfold Go.append. rewrite Ha.
  rewrite decide_True by done. rewrite bind_error_eta.
  match goal with
  | |- heap (ServiceAccounts_Update ?ns ?u ?w0).2 !! _ = _ =>
      pose proof (ServiceAccounts_Update_run ns u w0) as (_ & _ & -> & _)
  end.
  cbn [heap set_heap]. rewrite lookup_alter_eq.
  rewrite lookup_insert_ne by eauto using fresh_ne. by rewrite Harr.
Qed.

(** X5.  The list the cached account shows is the same before and after
    the handler ran, whatever happens to the array behind it. *)
Lemma serviceAccountsHandler_keeps_view env sa w :
  wf_slice (heap w) (ImagePullSecrets sa) →
  view (heap (serviceAccountsHandler env sa w).2) (ImagePullSecrets sa)
  = view (heap w) (ImagePullSecrets sa).
Proof.
  intros Hwf. destruct (scan env (view (heap w) (ImagePullSecrets sa))) eqn:Hscan.
  - by rewrite serviceAccountsHandler_present.
  - destruct (serviceAccountsHandler_absent env sa w Hwf Hscan)
      as (w' & Hw' & _ & _ & _ & _ & _ & Hview & _).
    by rewrite Hw'.
Qed.
End Robustness.

Section MoreServiceAccountFacts.
Implicit Types (env : gmap string string) (sa : ServiceAccount) (w : World).

(** What the handler leaves in an array that existed before it ran. *)
Lemma serviceAccountsHandler_heap_old env sa w a arr :
  heap w !! a = Some arr →
  scan env (view (heap w) (ImagePullSecrets sa)) = false →
  heap (serviceAccountsHandler env sa w).2 !! a
  = Some (if decide (s_arr (ImagePullSecrets sa) = Some a
                     ∧ s_len (ImagePullSecrets sa) < s_cap (ImagePullSecrets sa))
          then <[s_len (ImagePullSecrets sa) := newRef env]> arr
          else arr).
Proof.
  intros Harr Hscan.
  unfold serviceAccountsHandler, range, gets.
  unfold mbind at 1. unfold Exec_bind at 1. rewrite Hscan. cbn [negb].
  unfold DeepCopy. destruct (s_arr (ImagePullSecrets sa)) as [a0|] eqn:Ha.
  - unfold make_copy, alloc.
    unfold mbind at 1. unfold Exec_bind at 1.
    unfold mbind at 1. unfold Exec_bind at 1.
    unfold append at 1. unfold Go.append. rewrite Ha.
    destruct (decide (s_len (ImagePullSecrets sa) < s_cap (ImagePullSecrets sa))) as [Hroom|Hfull].
    + rewrite bind_error_eta.
      match goal with
      | |- heap (ServiceAccounts_Update ?ns ?u ?w0).2 !! _ = _ =>
          pose proof (ServiceAccounts_Update_run ns u w0) as (_ & _ & -> & _)
      end.
      cbn [heap set_heap].
      destruct (decide (a0 = a)) as [->|Hne].
      * rewrite lookup_alter_eq, lookup_insert_ne by eauto using fresh_ne.
        rewrite Harr. cbn. by rewrite decide_True.
      * rewrite lookup_alter_ne by done.
        rewrite lookup_insert_ne by eauto using fresh_ne.
        rewrite Harr. rewrite decide_False; [done|]. intros [[= ?] _]. done.
    + unfold alloc. rewrite bind_error_eta.
      match goal with
      | |- heap (ServiceAccounts_Update ?ns ?u ?w0).2 !! _ = _ =>
          pose proof (ServiceAccounts_Update_run ns u w0) as (_ & _ & -> & _)
      end.
      cbn [heap set_heap].
      rewrite lookup_insert_ne.
      2:{ apply (fresh_ne _ _ arr). rewrite lookup_insert_ne by eauto using fresh_ne. done. }
      rewrite lookup_insert_ne by eauto using fresh_ne.
      rewrite Harr. rewrite decide_False; [done|]. intros [_ ?]. done.
  - unfold mbind at 1. unfold Exec_bind at 1. unfold mret at 1. unfold Exec_ret at 1.
    unfold mbind at 1. unfold Exec_bind at 1.
    unfold append at 1. unfold Go.append. rewrite Ha. unfold alloc.
    rewrite bind_error_eta.
    match goal with
    | |- heap (ServiceAccounts_Update ?ns ?u ?w0).2 !! _ = _ =>
        pose proof (ServiceAccounts_Update_run ns u w0) as (_ & _ & -> & _)
    end.
    cbn [heap set_heap].
    rewrite lookup_insert_ne by eauto using fresh_ne.
    rewrite Harr. rewrite decide_False; [done|]. intros [[=] _].
Qed.

(** With the name missing the handler comes down to one update call, made
    on a world that differs from the given one in its slice heap only. *)
Lemma serviceAccountsHandler_absent_shape env sa w :
  scan env (view (heap w) (ImagePullSecrets sa)) = false →
  ∃ updated s' h,
    sa_meta updated = sa_meta sa
    ∧ serviceAccountsHandler env sa w
      = ServiceAccounts_Update (Namespace (sa_meta sa))
          (with_ImagePullSecrets updated s') (set_heap h w).
Proof.
  intros Hscan.
  destruct (DeepCopy_run sa w) as (updated & h1 & Hcopy & Hmeta & _).
  destruct (Go.append zero_ref h1 (ImagePullSecrets sa) (newRef env)) as [s' h2] eqn:Happ.
  exists updated, s', h2. split; [done|].
  unfold serviceAccountsHandler, range, gets.
  unfold mbind at 1. unfold Exec_bind at 1. rewrite Hscan. cbn [negb].
  unfold mbind at 1. unfold Exec_bind at 1. rewrite Hcopy.
  unfold mbind at 1. unfold Exec_bind at 1. unfold append at 1.
  cbn [heap set_heap]. fold (newRef env). rewrite Happ.
  by rewrite bind_error_eta.
Qed.

(** X7.  The service-account handler touches nothing but the account it
    was given: the cluster's secrets, the secrets cache and every other
    service account in the cluster are as before, whatever the run's
    outcome. *)
Theorem serviceAccountsHandler_frame env sa w :
  let w' := (serviceAccountsHandler env sa w).2 in
  secrets w' = secrets w
  ∧ secretsCache w' = secretsCache w
  ∧ indexerError w' = indexerError w
  ∧ ∀ key, key ≠ sa_key sa → serviceAccounts w' !! key = serviceAccounts w !! key.
Proof.
  destruct (scan env (view (heap w) (ImagePullSecrets sa))) eqn:Hscan.
  - by rewrite serviceAccountsHandler_present.
  - destruct (serviceAccountsHandler_absent_shape env sa w Hscan)
      as (updated & s' & h & Hmeta & ->).
    pose proof (ServiceAccounts_Update_run (Namespace (sa_meta sa))
                  (with_ImagePullSecrets updated s') (set_heap h w))
      as (_ & _ & _ & Hc & Hi & Hs & Hres).
    cbn zeta. split; [done|]. split; [done|]. split; [done|].
    intros key Hkey. cbn [with_ImagePullSecrets sa_meta] in Hres. rewrite Hmeta in Hres.
    fold (sa_key sa) in Hres.
    destruct (faults (set_heap h w)) as [|[reason|] fl];
      try destruct (serviceAccounts (set_heap h w) !! sa_key sa);
      injection Hres as _ ->; try done; by rewrite lookup_insert_ne.
Qed.

(** X8.  A run of the service-account handler that ends in an error has
    issued exactly one update and left the cluster's service accounts as
    they were; the error is the one the API call came back with, either
    the injected failure or not-found for an account the cluster lacks. *)
Theorem serviceAccountsHandler_failure env sa w reason :
  (serviceAccountsHandler env sa w).1 = Returns (Some reason) →
  length (issued (serviceAccountsHandler env sa) w) = 1
  ∧ serviceAccounts (serviceAccountsHandler env sa w).2 = serviceAccounts w
  ∧ (head (faults w) = Some (Some reason)
     ∨ (reason = ReasonNotFound ∧ serviceAccounts w !! sa_key sa = None)).
Proof.
  destruct (scan env (view (heap w) (ImagePullSecrets sa))) eqn:Hscan.
  - by rewrite serviceAccountsHandler_present.
  - destruct (serviceAccountsHandler_absent_shape env sa w Hscan)
      as (updated & s' & h & Hmeta & Heq).
    pose proof (ServiceAccounts_Update_run (Namespace (sa_meta sa))
                  (with_ImagePullSecrets updated s') (set_heap h w))
      as (Hcalls & _ & _ & _ & _ & _ & Hres).
    rewrite <-Heq in Hcalls, Hres.
    cbn [with_ImagePullSecrets sa_meta calls faults serviceAccounts set_heap] in Hcalls, Hres.
    rewrite Hmeta in Hres. fold (sa_key sa) in Hres.
    intros Hfail. rewrite Hfail in Hres.
    split; [by rewrite (issued_app _ w _ Hcalls)|].
    destruct (faults w) as [|[r|] fl];
      try destruct (serviceAccounts w !! sa_key sa) eqn:Hlook;
      injection Hres as ? ->; simplify_eq; cbn; eauto.
Qed.

(** X9.  An account without any pull secret (a nil list) gets one update
    whose list is the configured name alone. *)
Theorem serviceAccountsHandler_empty_list env m w :
  issued (serviceAccountsHandler env {| sa_meta := m; ImagePullSecrets := nil_slice |}) w
  = [ServiceAccountsUpdate (Namespace m) {| saw_meta := m; saw_pull := [newRef env] |}].
Proof.
  set (sa := {| sa_meta := m; ImagePullSecrets := nil_slice |}).
  assert (wf_slice (heap w) (ImagePullSecrets sa)) as Hwf by done.
  assert (scan env (view (heap w) (ImagePullSecrets sa)) = false) as Hscan by done.
  destruct (serviceAccountsHandler_absent env sa w Hwf Hscan) as (w' & Hw' & Hcalls & _).
  apply issued_app. by rewrite Hw'.
Qed.

(** X6.  The handler writes into no array that existed before it ran,
    except the one cell after a cached list with spare capacity: every other
    array, and the cached list's own array when it is full, is as before. *)
Theorem serviceAccountsHandler_heap_frame env sa w a arr :
  heap w !! a = Some arr →
  s_arr (ImagePullSecrets sa) ≠ Some a
  ∨ s_cap (ImagePullSecrets sa) ≤ s_len (ImagePullSecrets sa) →
  heap (serviceAccountsHandler env sa w).2 !! a = Some arr.
Proof.
  intros Harr Hother.
  destruct (scan env (view (heap w) (ImagePullSecrets sa))) eqn:Hscan.
  - by rewrite serviceAccountsHandler_present.
  - rewrite (serviceAccountsHandler_heap_old env sa w a arr Harr Hscan).
    rewrite decide_False; [done|]. intros [? ?]. destruct Hother; [done|lia].
Qed.

Lemma serviceAccountsHandler_heap_frame_witness :
  heap (serviceAccountsHandler env_regcred twins world_twins).2 !! 1%positive
  = Some [ref "quay"; ref "quay"].
Proof.
  apply (serviceAccountsHandler_heap_frame env_regcred twins world_twins).
  - vm_compute. reflexivity.
  - right. vm_compute. lia.
Defined.

(** X10.  The handler keeps no memory of what it sent: handed the same
    cached object again after a run, it issues the very same update
    again. *)
Theorem serviceAccountsHandler_resends_for_stale_object env sa w :
  wf_slice (heap w) (ImagePullSecrets sa) →
  Getenv env AURORA_SECRET_NAME ∉ (RefName <$> view (heap w) (ImagePullSecrets sa)) →
  issued (serviceAccountsHandler env sa) (serviceAccountsHandler env sa w).2
  = issued (serviceAccountsHandler env sa) w.
Proof.
  intros Hwf Habsent%scan_false.
  destruct (serviceAccountsHandler_absent env sa w Hwf Habsent)
    as (w' & Hw' & Hcalls & _ & _ & _ & _ & Hview & _).
  assert (wf_slice (heap w') (ImagePullSecrets sa)) as Hwf'.
  { unfold wf_slice in *. destruct (s_arr (ImagePullSecrets sa)) as [a|] eqn:Ha; [|done].
    destruct Hwf as (arr & Harr & Hlen & Hle).
    pose proof (serviceAccountsHandler_heap_old env sa w a arr Harr Habsent) as Hold.
    rewrite Hw' in Hold. cbn [snd] in Hold. eexists. split; [exact Hold|].
    split; [|done]. case_decide; [by rewrite length_insert|done]. }
  assert (scan env (view (heap w') (ImagePullSecrets sa)) = false) as Habsent'
    by (by rewrite Hview).
  destruct (serviceAccountsHandler_absent env sa w' Hwf' Habsent')
    as (w'' & Hw'' & Hcalls' & _).
  rewrite Hw'. cbn [snd].
  rewrite (issued_app _ w' [ServiceAccountsUpdate (Namespace (sa_meta sa)) (sentWire env sa w')])
    by (by rewrite Hw'').
  rewrite (issued_app _ w [ServiceAccountsUpdate (Namespace (sa_meta sa)) (sentWire env sa w)])
    by (by rewrite Hw').
  unfold sentWire. by rewrite Hview.
Qed.

Lemma serviceAccountsHandler_resends_for_stale_object_witness :
  issued (serviceAccountsHandler env_regcred builder)
    (serviceAccountsHandler env_regcred builder world_builder).2
  = issued (serviceAccountsHandler env_regcred builder) world_builder.
Proof.
  apply (serviceAccountsHandler_resends_for_stale_object env_regcred builder world_builder).
  - exists [ref "quay"; ref "ghcr"; ref "internal"; zero_ref]. vm_compute. repeat split. lia.
  - apply (bool_decide_unpack _). vm_compute. exact I.
Defined.

Lemma serviceAccountsHandler_failure_witness :
  length (issued (serviceAccountsHandler env_regcred builder)
            (set_faults [Some ReasonConflict] world_builder)) = 1.
Proof.
  refine (proj1 (serviceAccountsHandler_failure env_regcred builder
                   (set_faults [Some ReasonConflict] world_builder) ReasonConflict _)).
  vm_compute. reflexivity.
Defined.

(** X21.  The scan over a list put together from two parts finds the name
    when it is in either part, and it always finds it in a list that ends
    with the reference the handler appends. *)
Theorem scan_app env (refs more : list LocalObjectReference) :
  scan env (refs ++ more) = scan env refs || scan env more
  ∧ scan env (refs ++ [newRef env]) = true.
Proof.
  assert (∀ l1 l2, scan env (l1 ++ l2) = scan env l1 || scan env l2) as Happ.
  { intros l1 l2. induction l1 as [|r l1 IH]; [done|]. cbn.
    by destruct (String.eqb (RefName r) (Getenv env AURORA_SECRET_NAME)). }
  split; [apply Happ|]. rewrite Happ. cbn. rewrite String.eqb_refl.
  apply orb_true_r.
Qed.
End MoreServiceAccountFacts.

Section MoreNamespaceFacts.
Implicit Types (env : gmap string string) (ns : Namespace_) (w : World).

Lemma namespacesHandler_world env ns w :
  ∃ secret,
    generateSecrets env ns = [secret]
    ∧ secret_key secret = secretKey env ns
    ∧ Namespace (sec_meta secret) = Name (ns_meta ns)
    ∧ Data secret = desiredData env
    ∧ (namespacesHandler env ns w).2 = (reconcileSecret secret w).2.
Proof.
  destruct (namespacesHandler_run env ns w) as (secret & Hgen & Hkey & Hns & Hdata & Hrun).
  exists secret. repeat (split; [done|]). rewrite Hrun.
  by destruct (reconcileSecret secret w) as [[[|err]|msg] w'].
Qed.

(** The four ways a run of the namespace handler can go. *)
Lemma namespacesHandler_cases env ns w :
  (∃ reason, indexerError w = Some reason ∧ reason ≠ ReasonNotFound)
  ∨ (∃ cur, indexerError w = None ∧ secretsCache w !! secretKey env ns = Some cur
            ∧ Data cur = desiredData env)
  ∨ (∃ cur, indexerError w = None ∧ secretsCache w !! secretKey env ns = Some cur
            ∧ Data cur ≠ desiredData env)
  ∨ (indexerError w = Some ReasonNotFound
     ∨ (indexerError w = None ∧ secretsCache w !! secretKey env ns = None)).
Proof.
  destruct (indexerError w) as [reason|].
  - destruct (decide (reason = ReasonNotFound)) as [->|Hne]; [|by eauto].
    right. right. right. by left.
  - destruct (secretsCache w !! secretKey env ns) as [cur|]; [|by eauto 10].
    destruct (decide (Data cur = desiredData env)); eauto 10.
Qed.

(** X11.  The namespace handler touches the one secret it is about and
    nothing else: the slice heap, the cluster's service accounts and all other
    entries of the secrets cache are as before, and so is every other secret
    in the cluster when the cache files its secrets under their own names. *)
Theorem namespacesHandler_frame env ns w :
  let w' := (namespacesHandler env ns w).2 in
  heap w' = heap w
  ∧ serviceAccounts w' = serviceAccounts w
  ∧ indexerError w' = indexerError w
  ∧ (∀ key, key ≠ secretKey env ns → secretsCache w' !! key = secretsCache w !! key)
  ∧ (keyed_by_name (secretsCache w) →
     ∀ key, key ≠ secretKey env ns → secrets w' !! key = secrets w !! key).
Proof.
  cbn zeta.
  destruct (namespacesHandler_cases env ns w)
    as [(reason & Hi & Hne) | [(cur & Hi & Hc & Heq) | [(cur & Hi & Hc & Hne) | Hmiss]]].
  - by rewrite (namespacesHandler_lister_error env ns w reason Hi Hne).
  - by rewrite (namespacesHandler_cached_equal env ns w cur Hi Hc Heq).
  - destruct (namespacesHandler_world env ns w) as (secret & _ & Hkey & Hns & Hdata & ->).
    rewrite <-Hkey in Hc. rewrite <-Hdata in Hne.
    destruct (reconcileSecret_cached_differs secret w cur Hi Hc Hne)
      as (_ & _ & Hcache & Hie & Hheap & Hsa & Hres).
    rewrite Hkey in Hcache, Hc. rewrite Hns in Hres.
    split; [done|]. split; [done|]. split; [congruence|]. split.
    + intros key Hk. by rewrite Hcache, lookup_insert_ne.
    + intros Hkeyed key Hk.
      assert (Name (sec_meta cur) = Getenv env AURORA_SECRET_NAME) as Hname.
      { pose proof (Hkeyed _ _ Hc) as Hcur. unfold secret_key, secretKey in Hcur.
        by injection Hcur. }
      rewrite Hname in Hres. fold (secretKey env ns) in Hres.
      destruct (faults w) as [|[reason|] fl];
        try destruct (secrets w !! secretKey env ns);
        injection Hres as _ ->; try done; by rewrite lookup_insert_ne.
  - destruct (namespacesHandler_world env ns w) as (secret & _ & Hkey & Hns & Hdata & ->).
    rewrite <-Hkey in Hmiss.
    destruct (reconcileSecret_missing secret w Hmiss)
      as (_ & _ & Hcache & Hie & Hheap & Hsa & Hres).
    rewrite Hkey in Hres.
    split; [done|]. split; [done|]. split; [done|]. split.
    + intros key Hk. by rewrite Hcache.
    + intros _ key Hk.
      destruct (faults w) as [|[reason|] fl];
        try destruct (secrets w !! secretKey env ns);
        injection Hres as _ ->; try done; by rewrite lookup_insert_ne.
Qed.

Lemma namespacesHandler_frame_witness :
  secrets (namespacesHandler env_regcred team_a world_drifted).2 !! ("team-b", "regcred")
  = secrets world_drifted !! ("team-b", "regcred").
Proof.
  refine (proj2 (proj2 (proj2 (proj2
    (namespacesHandler_frame env_regcred team_a world_drifted)))) _ ("team-b", "regcred") _).
  - apply (bool_decide_unpack _). vm_compute. exact I.
  - vm_compute. discriminate.
Defined.

(** X12.  When the cached secret's data differs from the configured one,
    the cached object itself carries the configured data once the handler has
    run, whether the update call succeeded or not. *)
Theorem namespacesHandler_overwrites_cached_data env ns w current :
  indexerError w = None →
  secretsCache w !! secretKey env ns = Some current →
  Data current ≠ desiredData env →
  secretsCache (namespacesHandler env ns w).2 !! secretKey env ns
  = Some (with_Data current (desiredData env)).
Proof.
  intros Hi Hc Hne.
  destruct (namespacesHandler_cached_differs env ns w current Hi Hc Hne) as (_ & -> & _).
  apply lookup_insert_eq.
Qed.

Lemma namespacesHandler_overwrites_cached_data_witness :
  secretsCache (namespacesHandler env_regcred team_a
                  (set_faults [Some ReasonConflict] world_drifted)).2
    !! secretKey env_regcred team_a
  = Some (with_Data drifted (desiredData env_regcred)).
Proof.
  apply (namespacesHandler_overwrites_cached_data env_regcred team_a
           (set_faults [Some ReasonConflict] world_drifted) drifted).
  - reflexivity.
  - vm_compute. reflexivity.
  - apply (bool_decide_unpack _). vm_compute. exact I.
Defined.

(** X13.  When the lister does not find the secret but the cluster has
    one under that name, the handler's create is answered already-exists and
    the handler returns that error: it issues no further call, and the
    secret in the cluster stays as it is, whatever its data. *)
Theorem namespacesHandler_create_race env ns w existing :
  indexerError w = None →
  secretsCache w !! secretKey env ns = None →
  secrets w !! secretKey env ns = Some existing →
  (∀ reason, head (faults w) ≠ Some (Some reason)) →
  (namespacesHandler env ns w).1 = Returns (Some ReasonAlreadyExists)
  ∧ length (issued (namespacesHandler env ns) w) = 1
  ∧ Forall (λ c, create_or_update c = true) (issued (namespacesHandler env ns) w)
  ∧ secrets (namespacesHandler env ns w).2 = secrets w.
Proof.
  intros Hi Hc Hex Hfault.
  destruct (namespacesHandler_missing env ns w (or_intror (conj Hi Hc)))
    as (secret & _ & Hissued & _ & Hres).
  rewrite Hex in Hres. rewrite Hissued.
  destruct (faults w) as [|[reason|] fl]; [| by destruct (Hfault reason) |];
    injection Hres as -> ->; repeat split; by repeat constructor.
Qed.

Lemma namespacesHandler_create_race_witness :
  (namespacesHandler env_regcred team_a world_raced).1 = Returns (Some ReasonAlreadyExists).
Proof.
  refine (proj1 (namespacesHandler_create_race env_regcred team_a world_raced drifted _ _ _ _)).
  - reflexivity.
  - vm_compute. reflexivity.
  - vm_compute. reflexivity.
  - intros reason. vm_compute. discriminate.
Defined.

(** X14.  A run of the namespace handler that ends in an error has issued
    exactly one call and has not changed any secret in the cluster: after a
    failed create it attempts no update, after a failed update no create. *)
Theorem namespacesHandler_failure env ns w reason :
  (namespacesHandler env ns w).1 = Returns (Some reason) →
  length (issued (namespacesHandler env ns) w) = 1
  ∧ secrets (namespacesHandler env ns w).2 = secrets w.
Proof.
  destruct (namespacesHandler_cases env ns w)
    as [(r & Hi & Hne) | [(cur & Hi & Hc & Heq) | [(cur & Hi & Hc & Hne) | Hmiss]]].
  - by rewrite (namespacesHandler_lister_error env ns w r Hi Hne).
  - by rewrite (namespacesHandler_cached_equal env ns w cur Hi Hc Heq).
  - destruct (namespacesHandler_cached_differs env ns w cur Hi Hc Hne) as (-> & _ & Hres).
    intros Hfail. rewrite Hfail in Hres. split; [done|].
    destruct (faults w) as [|[r|] fl];
      try destruct (secrets w !! (Name (ns_meta ns), Name (sec_meta cur)));
      first [discriminate Hres | by injection Hres as _ ->].
  - destruct (namespacesHandler_missing env ns w Hmiss) as (secret & _ & -> & _ & Hres).
    intros Hfail. rewrite Hfail in Hres. split; [done|].
    destruct (faults w) as [|[r|] fl];
      try destruct (secrets w !! secretKey env ns);
      first [discriminate Hres | by injection Hres as _ ->].
Qed.

Lemma namespacesHandler_failure_witness :
  length (issued (namespacesHandler env_regcred team_a) world_raced) = 1
  ∧ secrets (namespacesHandler env_regcred team_a world_raced).2 = secrets world_raced.
Proof.
  apply (namespacesHandler_failure env_regcred team_a world_raced ReasonAlreadyExists).
  vm_compute. reflexivity.
Defined.

(** X15.  When the cache still shows a secret with other data but the
    cluster no longer has it, the handler's update is answered not-found and
    the handler returns that error; it does not create the secret. *)
Theorem namespacesHandler_stale_cache env ns w current :
  indexerError w = None →
  secretsCache w !! secretKey env ns = Some current →
  Data current ≠ desiredData env →
  secrets w !! (Name (ns_meta ns), Name (sec_meta current)) = None →
  (∀ reason, head (faults w) ≠ Some (Some reason)) →
  (namespacesHandler env ns w).1 = Returns (Some ReasonNotFound)
  ∧ issued (namespacesHandler env ns) w
    = [SecretsUpdate (Name (ns_meta ns)) (with_Data current (desiredData env))]
  ∧ secrets (namespacesHandler env ns w).2 = secrets w.
Proof.
  intros Hi Hc Hne Hgone Hfault.
  destruct (namespacesHandler_cached_differs env ns w current Hi Hc Hne) as (-> & _ & Hres).
  rewrite Hgone in Hres.
  destruct (faults w) as [|[reason|] fl]; [| by destruct (Hfault reason) |];
    by injection Hres as -> ->.
Qed.

Lemma namespacesHandler_stale_cache_witness :
  (namespacesHandler env_regcred team_a world_stale).1 = Returns (Some ReasonNotFound).
Proof.
  refine (proj1 (namespacesHandler_stale_cache env_regcred team_a world_stale drifted
                   _ _ _ _ _)).
  - reflexivity.
  - vm_compute. reflexivity.
  - apply (bool_decide_unpack _). vm_compute. exact I.
  - vm_compute. reflexivity.
  - intros reason. vm_compute. discriminate.
Defined.
End MoreNamespaceFacts.

Section MoreEventFacts.

(** X16.  An update notification whose new object carries another
    resource version than the old one makes the handler call [HandleObject]
    exactly once, with the new object: on the service-account controller for
    a service account, on the namespace controller for a secret. *)
Theorem changed_resourceVersion_enqueued_once (n : UpdateNotification) :
  ¬ sameResourceVersion n →
  deliverUpdate n
  = Returns [match n with
             | ServiceAccountUpdated _ new =>
                 HandleObject controllerServiceAccounts (ObjServiceAccount new)
             | SecretUpdated _ new =>
                 HandleObject controllerNamespaces (ObjSecret new)
             end].
Proof.
  destruct n as [old new|old new]; cbn; intros Hne.
  - by destruct (String.eqb_spec (ResourceVersion (sa_meta new)) (ResourceVersion (sa_meta old))).
  - by destruct (String.eqb_spec (ResourceVersion (sec_meta new)) (ResourceVersion (sec_meta old))).
Qed.

Lemma changed_resourceVersion_enqueued_once_witness :
  deliverUpdate (SecretUpdated drifted rotated)
  = Returns [HandleObject controllerNamespaces (ObjSecret rotated)].
Proof.
  apply (changed_resourceVersion_enqueued_once (SecretUpdated drifted rotated)).
  cbn. discriminate.
Defined.

(** X18.  The update functions convert both arguments without checking:
    each returns only when old and new object are both of its informer's
    kind, and panics on anything else. *)
Theorem UpdateFunc_panics_on_other_kinds (old new : Object) :
  ((∃ o n, old = ObjServiceAccount o ∧ new = ObjServiceAccount n)
   ∨ serviceAccountsUpdateFunc old new = Panics assertion_failed)
  ∧ ((∃ o n, old = ObjSecret o ∧ new = ObjSecret n)
     ∨ secretsUpdateFunc old new = Panics assertion_failed)
  ∧ (∀ effects, serviceAccountsUpdateFunc old new = Returns effects →
       secretsUpdateFunc old new = Panics assertion_failed).
Proof.
  destruct old, new; cbn; repeat split; eauto; done.
Qed.
End MoreEventFacts.

Section MoreStartupFacts.
Implicit Types (env : gmap string string) (boot : Boot) (ns : Namespace_).

(** X19.  [Run] starts the controllers only with both clients built, and
    then always both of them with two workers each, never one alone; a
    failure to build the configuration ends it fatally whatever else holds,
    and so does a failure to build the clientset. *)
Theorem Run_needs_both_clients env boot :
  (∀ runs, Run env boot = Started runs →
     BuildConfigFromFlags_ok boot = true
     ∧ NewForConfig_ok boot = true
     ∧ runs = [(controllerServiceAccounts, 2); (controllerNamespaces, 2)])
  ∧ (BuildConfigFromFlags_ok boot = false →
     Run env boot = Fatal "error building kubeconfig")
  ∧ (BuildConfigFromFlags_ok boot = true → NewForConfig_ok boot = false →
     Run env boot = Fatal "Error building kubernetes clientset").
Proof.
  unfold Run.
  destruct (BuildConfigFromFlags_ok boot), (NewForConfig_ok boot); cbn [negb];
    (split; [|by split]); intros runs; try done.
  destruct (WaitForCacheSync _ _); [|done|done]. by intros [= <-].
Qed.

Lemma Run_needs_both_clients_witness :
  Run env_regcred boot_no_kubeconfig = Fatal "error building kubeconfig".
Proof.
  refine (proj1 (proj2 (Run_needs_both_clients env_regcred boot_no_kubeconfig)) _).
  reflexivity.
Defined.

Lemma bytes_of_string_inj (s t : string) :
  bytes_of_string s = bytes_of_string t → s = t.
Proof.
  unfold bytes_of_string. intros [= H].
  rewrite <-(String.string_of_list_byte_of_string s),
          <-(String.string_of_list_byte_of_string t). by rewrite H.
Qed.

(** X20.  [generateSecrets] asks for the same secret exactly when the
    credential name, the credential payload and the namespace's name are the
    same: nothing else of the environment or of the namespace object enters,
    and two payloads that differ in any byte give different secrets. *)
Theorem generateSecrets_inj env env' ns ns' :
  generateSecrets env ns = generateSecrets env' ns'
  ↔ Getenv env AURORA_SECRET_NAME = Getenv env' AURORA_SECRET_NAME
    ∧ Getenv env AURORA_SECRET_DOCKERCONFIGJSON = Getenv env' AURORA_SECRET_DOCKERCONFIGJSON
    ∧ Name (ns_meta ns) = Name (ns_meta ns').
Proof.
  unfold generateSecrets. cbn [app]. split.
  - intros Heq.
    apply (f_equal (λ l, match l with
                         | [s] => Some (Name (sec_meta s), Namespace (sec_meta s),
                                        Data s !! dockerconfigjson)
                         | _ => None
                         end)) in Heq.
    cbn [sec_meta Name Namespace Data] in Heq.
    rewrite !lookup_singleton_eq in Heq.
    injection Heq as Hname Hns Hdata. repeat split; try done.
    apply bytes_of_string_inj. unfold bytes_of_string in *. congruence.
  - by intros (-> & -> & ->).
Qed.
End MoreStartupFacts.

Section RobustnessWitnesses.

Lemma namespacesHandler_returns_witness :
  ∃ err, (namespacesHandler env_regcred team_a world_drifted).1 = Returns err.
Proof.
  apply (namespacesHandler_returns env_regcred team_a world_drifted). left. reflexivity.
Defined.

Lemma namespacesHandler_panics_witness :
  (namespacesHandler env_regcred team_a world_lister_down).1 = Panics nil_deref
  ∧ issued (namespacesHandler env_regcred team_a) world_lister_down = [].
Proof.
  apply (namespacesHandler_panics env_regcred team_a world_lister_down ReasonInternalError).
  - reflexivity.
  - discriminate.
Defined.

Lemma serviceAccountsHandler_overwrites_spare_cell_witness :
  heap (serviceAccountsHandler env_regcred builder world_builder).2 !! 1%positive
  = Some (<[3 := newRef env_regcred]> [ref "quay"; ref "ghcr"; ref "internal"; zero_ref]).
Proof.
  apply (serviceAccountsHandler_overwrites_spare_cell env_regcred builder world_builder).
  - reflexivity.
  - vm_compute. reflexivity.
  - vm_compute. lia.
  - vm_compute. reflexivity.
Defined.

Lemma serviceAccountsHandler_keeps_view_witness :
  view (heap (serviceAccountsHandler env_regcred builder world_builder).2)
    (ImagePullSecrets builder)
  = view (heap world_builder) (ImagePullSecrets builder).
Proof.
  apply (serviceAccountsHandler_keeps_view env_regcred builder world_builder).
  exists [ref "quay"; ref "ghcr"; ref "internal"; zero_ref]. vm_compute. repeat split. lia.
Defined.
End RobustnessWitnesses.

Section ClaimsPanics.
Implicit Types (env : gmap string string) (sa : ServiceAccount) (ns : Namespace_) (w : World).


End ClaimsPanics.
